(** * Astra: the motion-recording store and the playback controllers

    A shallow embedding of
      - [src/stores/motionStore.ts]       (the zustand store),
      - [src/App.js]                      (the tab shell with its own playback),
      - the [VisualizeScreen] component   (playback over the store),
      - [src/components/MotionTracker.tsx] and [MotionTracker.js]
        (the sensor listeners that build samples).

    Conventions.  A JavaScript [number] used as an array index or a
    timestamp is a [Z]; a sensor reading is an IEEE-754 binary64 [float].
    Store actions are written in the state monad, with zustand's [get] and
    [set] as the only primitives.  Console output and the write-through to
    AsyncStorage are not part of the model: they do not feed back into the
    state.  None of the modelled actions has a throwing path, so every
    action is a total state transformer. *)

From Stdlib Require Import ZArith List Bool Lia PArith.
From Stdlib Require Import Floats.PrimFloat.
From ExtLib Require Import Structures.Monad Structures.MonadState.
From ExtLib Require Import Data.Monads.StateMonad.
Import ListNotations.
Import MonadNotation.
Local Open Scope monad_scope.
Local Open Scope Z_scope.

(** ** Samples *)

(** [type: 'accelerometer' | 'gyroscope'] *)
Inductive SensorType : Type :=
  | accelerometer
  | gyroscope.

(** [interface MotionData]; the three optional fields are [option]s, with
    [None] for a key that is absent from the object. *)
Record MotionData : Type := mkMotionData {
  type : SensorType;
  timestamp : Z;
  x : float;
  y : float;
  z : float;
  rotationX : option float;
  rotationY : option float;
  rotationZ : option float
}.

(** The result of reading a JavaScript expression that is a sample, [null]
    or [undefined]. *)
Inductive Frame : Type :=
  | JsNull
  | JsUndefined
  | Sample (d : MotionData).

(** [arr.length] as a number. *)
Definition len {A : Type} (arr : list A) : Z := Z.of_nat (length arr).

(** [arr[i]] for an integral [i]: an index outside [0 .. length-1] reads
    [undefined]. *)
Definition js_index (arr : list MotionData) (i : Z) : Frame :=
  if i <? 0 then JsUndefined
  else match nth_error arr (Z.to_nat i) with
       | Some d => Sample d
       | None => JsUndefined
       end.

(** ** The store: [src/stores/motionStore.ts] *)

Module MotionStore.

(** The data part of [interface MotionState]. *)
Record MotionState : Type := mkMotionState {
  isRecording : bool;
  recordedData : list MotionData;
  currentDataIndex : Z
}.

(** The object handed to zustand's [set]: the keys it mentions. *)
Record Partial : Type := mkPartial {
  isRecording' : option bool;
  recordedData' : option (list MotionData);
  currentDataIndex' : option Z
}.

Definition orElse {A : Type} (o : option A) (a : A) : A :=
  match o with Some v => v | None => a end.

(** zustand merges the partial object into the state, key by key. *)
Definition merge (p : Partial) (s : MotionState) : MotionState :=
  {| isRecording := orElse (isRecording' p) (isRecording s);
     recordedData := orElse (recordedData' p) (recordedData s);
     currentDataIndex := orElse (currentDataIndex' p) (currentDataIndex s) |}.

Definition Action : Type := state MotionState unit.

(** [set({...})] *)
Definition set (p : Partial) : Action := modify (merge p) ;; ret tt.

(** [set((state) => ({...}))] *)
Definition setWith (f : MotionState -> Partial) : Action :=
  s <- get ;; set (f s).

(** Line 31-33: the state the store is created with. *)
Definition initialState : MotionState :=
  {| isRecording := false; recordedData := []; currentDataIndex := 0 |}.

Definition startRecording : Action :=
  set {| isRecording' := Some true;
         recordedData' := Some [];
         currentDataIndex' := Some 0 |}.

Definition stopRecording : Action :=
  set {| isRecording' := Some false;
         recordedData' := None;
         currentDataIndex' := None |}.

Definition addDataPoint (dataPoint : MotionData) : Action :=
  s <- get ;;
  if negb (isRecording s) then ret tt
  else
    set {| isRecording' := None;
           recordedData' := Some (recordedData s ++ [dataPoint]);
           currentDataIndex' := Some (len (recordedData s)) |}.

Definition clearRecordedData : Action :=
  set {| isRecording' := Some false;
         recordedData' := Some [];
         currentDataIndex' := Some 0 |}.

Definition nextDataPoint : Action :=
  setWith (fun state =>
    let newIndex :=
      Z.min (currentDataIndex state + 1)
            (Z.max 0 (len (recordedData state) - 1)) in
    {| isRecording' := None;
       recordedData' := None;
       currentDataIndex' := Some newIndex |}).

Definition previousDataPoint : Action :=
  setWith (fun state =>
    let newIndex := Z.max 0 (currentDataIndex state - 1) in
    {| isRecording' := None;
       recordedData' := None;
       currentDataIndex' := Some newIndex |}).

(** The state after an action. *)
Definition run (a : Action) (s : MotionState) : MotionState := execState a s.

(** A sensor feeding the store: one [addDataPoint] per sample, in order. *)
Definition feed (samples : list MotionData) (s : MotionState) : MotionState :=
  fold_left (fun st d => run (addDataPoint d) st) samples s.

(** The six actions of the store, as values. *)
Inductive Op : Type :=
  | OpStartRecording
  | OpStopRecording
  | OpAddDataPoint (dataPoint : MotionData)
  | OpClearRecordedData
  | OpNextDataPoint
  | OpPreviousDataPoint.

Definition action (op : Op) : Action :=
  match op with
  | OpStartRecording => startRecording
  | OpStopRecording => stopRecording
  | OpAddDataPoint d => addDataPoint d
  | OpClearRecordedData => clearRecordedData
  | OpNextDataPoint => nextDataPoint
  | OpPreviousDataPoint => previousDataPoint
  end.

(** The two navigation actions in sequence. *)
Definition navigate (ops : list bool) (s : MotionState) : MotionState :=
  fold_left
    (fun st forward =>
       run (if forward : bool then nextDataPoint else previousDataPoint) st)
    ops s.

(** The cursor is within the log, or is 0 on an empty log. *)
Definition cursor_in_bounds (s : MotionState) : Prop :=
  0 <= currentDataIndex s <= Z.max 0 (len (recordedData s) - 1).

(** The states the store goes through: the initial one and whatever the
    actions make of it. *)
Inductive reachable : MotionState -> Prop :=
  | reach_init : reachable initialState
  | reach_step (op : Op) (s : MotionState) :
      reachable s -> reachable (run (action op) s).

End MotionStore.

(** ** The tab shell: [src/App.js] *)

Module App.

(** What [setInterval] returns.  React Native hands out positive numbers,
    so a handle is always truthy. *)
Definition IntervalId : Type := positive.

(** A pending interval of the host: its handle and the [recordedData] that
    its callback closed over when [handleStartPlayback] created it. *)
Record Interval : Type := mkInterval {
  handle : IntervalId;
  closure_recordedData : list MotionData
}.

(** The hooks of [App] (tab navigation left out) and the host's timers. *)
Record AppState : Type := mkAppState {
  recordedData : list MotionData;
  isPlaying : bool;
  currentFrameIndex : Z;
  isRecording : bool;
  playbackIntervalRef : option IntervalId;
  timers : list Interval;
  nextHandle : IntervalId
}.

(** An event handler: a computation over the hooks. *)
Abbreviation Handler := (state AppState).

Definition setRecordedData (f : list MotionData -> list MotionData)
  : Handler unit :=
  modify (fun a =>
    mkAppState (f (recordedData a)) (isPlaying a) (currentFrameIndex a)
      (isRecording a) (playbackIntervalRef a) (timers a) (nextHandle a)) ;;
  ret tt.

Definition setIsPlaying (b : bool) : Handler unit :=
  modify (fun a =>
    mkAppState (recordedData a) b (currentFrameIndex a)
      (isRecording a) (playbackIntervalRef a) (timers a) (nextHandle a)) ;;
  ret tt.

Definition setCurrentFrameIndex (i : Z) : Handler unit :=
  modify (fun a =>
    mkAppState (recordedData a) (isPlaying a) i
      (isRecording a) (playbackIntervalRef a) (timers a) (nextHandle a)) ;;
  ret tt.

Definition setIsRecording (b : bool) : Handler unit :=
  modify (fun a =>
    mkAppState (recordedData a) (isPlaying a) (currentFrameIndex a)
      b (playbackIntervalRef a) (timers a) (nextHandle a)) ;;
  ret tt.

(** [playbackIntervalRef.current = r] *)
Definition setPlaybackIntervalRef (r : option IntervalId) : Handler unit :=
  modify (fun a =>
    mkAppState (recordedData a) (isPlaying a) (currentFrameIndex a)
      (isRecording a) r (timers a) (nextHandle a)) ;;
  ret tt.

(** [clearInterval(id)]: the host drops the interval with that handle. *)
Definition clearInterval (id : IntervalId) : Handler unit :=
  modify (fun a =>
    mkAppState (recordedData a) (isPlaying a) (currentFrameIndex a)
      (isRecording a) (playbackIntervalRef a)
      (filter (fun iv => negb (Pos.eqb (handle iv) id)) (timers a))
      (nextHandle a)) ;;
  ret tt.

(** [setInterval(callback, 100)]: the host registers the callback, here
    given by the log it closed over, under a fresh handle. *)
Definition setInterval (captured : list MotionData) : Handler IntervalId :=
  a <- get ;;
  let id := nextHandle a in
  put (mkAppState (recordedData a) (isPlaying a) (currentFrameIndex a)
         (isRecording a) (playbackIntervalRef a)
         (timers a ++ [mkInterval id captured]) (Pos.succ id)) ;;
  ret id.

(** Line 26-30. *)
Definition initialState : AppState :=
  mkAppState [] false 0 false None [] 1%positive.

Definition clearPlaybackInterval : Handler unit :=
  a <- get ;;
  match playbackIntervalRef a with
  | Some id => clearInterval id ;; setPlaybackIntervalRef None
  | None => ret tt
  end.

Definition handleStartRecording : Handler unit :=
  setIsRecording true ;; setRecordedData (fun _ => []).

Definition handleStopRecording : Handler unit :=
  setIsRecording false.

Definition handleDataPoint (dataPoint : MotionData) : Handler unit :=
  a <- get ;;
  if isRecording a then setRecordedData (fun prevData => prevData ++ [dataPoint])
  else ret tt.

(** The callback given to [setInterval] at line 68, for the [recordedData]
    of the render that created it. *)
Definition tick (captured : list MotionData) : Handler unit :=
  a <- get ;;
  let prevIndex := currentFrameIndex a in
  if prevIndex >=? len captured - 1 then
    clearPlaybackInterval ;;
    setIsPlaying false ;;
    setCurrentFrameIndex 0
  else setCurrentFrameIndex (prevIndex + 1).

Definition handleStartPlayback : Handler unit :=
  a <- get ;;
  if len (recordedData a) =? 0 then ret tt
  else
    setIsPlaying true ;;
    setCurrentFrameIndex 0 ;;
    clearPlaybackInterval ;;
    id <- setInterval (recordedData a) ;;
    setPlaybackIntervalRef (Some id).

Definition handleStopPlayback : Handler unit :=
  setIsPlaying false ;; clearPlaybackInterval.

Definition getCurrentMotionData (a : AppState) : Frame :=
  if (len (recordedData a) =? 0) || negb (isPlaying a) then JsNull
  else js_index (recordedData a) (currentFrameIndex a).

Definition run {A : Type} (h : Handler A) (a : AppState) : AppState :=
  execState h a.

(** The host fires an interval: its callback runs if it is still pending. *)
Definition fire (id : IntervalId) (a : AppState) : AppState :=
  match find (fun iv => Pos.eqb (handle iv) id) (timers a) with
  | Some iv => run (tick (closure_recordedData iv)) a
  | None => a
  end.

(** No interval with handle [id] is pending. *)
Definition cancelled (id : IntervalId) (a : AppState) : Prop :=
  forall iv, In iv (timers a) -> handle iv <> id.

(** The host has handed out every pending handle already. *)
Definition handles_fresh (a : AppState) : Prop :=
  forall iv, In iv (timers a) -> (handle iv < nextHandle a)%positive.

End App.

(** ** The playback screen over the store: [VisualizeScreen] *)

Module VisualizeScreen.

(** What the component holds between renders: the store it subscribes to,
    its [isPlaying] hook, the interval that the last run of the effect left
    pending (the effect's local [playbackInterval]), and the host's counter
    of handles. *)
Record Screen : Type := mkScreen {
  store : MotionStore.MotionState;
  isPlaying : bool;
  playbackInterval : option App.IntervalId;
  nextHandle : App.IntervalId
}.

(** The dependency array of the effect, line 27. *)
Definition deps (sc : Screen) : bool * Z :=
  (isPlaying sc, len (MotionStore.recordedData (store sc))).

Definition deps_eqb (d1 d2 : bool * Z) : bool :=
  Bool.eqb (fst d1) (fst d2) && (snd d1 =? snd d2).

(** The function the effect returns, line 22-26. *)
Definition cleanup (sc : Screen) : Screen :=
  match playbackInterval sc with
  | Some _ => mkScreen (store sc) (isPlaying sc) None (nextHandle sc)
  | None => sc
  end.

(** The body of the effect, line 14-20. *)
Definition effect (sc : Screen) : Screen :=
  if isPlaying sc && (len (MotionStore.recordedData (store sc)) >? 0) then
    mkScreen (store sc) (isPlaying sc) (Some (nextHandle sc))
      (Pos.succ (nextHandle sc))
  else mkScreen (store sc) (isPlaying sc) None (nextHandle sc).

(** A render after a state change: React runs the cleanup and the effect
    again only if a dependency differs from the previous render. *)
Definition rerender (before after : Screen) : Screen :=
  if deps_eqb (deps before) (deps after) then after
  else effect (cleanup after).

(** The interval's callback, line 17-19: [nextDataPoint()] on the store. *)
Definition tick (sc : Screen) : Screen :=
  rerender sc
    (mkScreen (MotionStore.run MotionStore.nextDataPoint (store sc))
       (isPlaying sc) (playbackInterval sc) (nextHandle sc)).

(** The Play/Pause button, line 57. *)
Definition togglePlaying (sc : Screen) : Screen :=
  rerender sc
    (mkScreen (store sc) (negb (isPlaying sc)) (playbackInterval sc)
       (nextHandle sc)).

(** [n] firings of the interval in a row. *)
Fixpoint ticks (n : nat) (sc : Screen) : Screen :=
  match n with
  | O => sc
  | S k => ticks k (tick sc)
  end.

(** Line 29-30; [%] is the remainder that takes the sign of the dividend. *)
Definition currentMotionData (sc : Screen) : Frame :=
  let recordedData := MotionStore.recordedData (store sc) in
  let currentDataIndex := MotionStore.currentDataIndex (store sc) in
  if len recordedData >? 0 then
    js_index recordedData (Z.rem currentDataIndex (len recordedData))
  else JsNull.

(** Playback that loops: the frame shown [k] ticks after the cursor was at
    [i] is the one at [(i + k) % length]. *)
Definition loops (sc : Screen) : Prop :=
  forall k : nat,
    currentMotionData (ticks k sc) =
      js_index (MotionStore.recordedData (store sc))
        (Z.rem (MotionStore.currentDataIndex (store sc) + Z.of_nat k)
               (len (MotionStore.recordedData (store sc)))).

End VisualizeScreen.

(** ** The sensor listeners *)

(** What a sensor hands to its listener. *)
Record Measurement : Type := mkMeasurement {
  mx : float;
  my : float;
  mz : float
}.

(** What one call of a listener does with its sample: the object it built,
    if it built one, and whether it passed it to [onDataPoint]. *)
Record Capture : Type := mkCapture {
  built : option MotionData;
  sent : bool
}.

Definition nothing : Capture := mkCapture None false.

(** The samples that reach [onDataPoint]. *)
Definition delivered (c : Capture) : option MotionData :=
  if sent c then built c else None.

(** A sample carries no derived rotation at all. *)
Definition no_rotation (d : MotionData) : Prop :=
  rotationX d = None /\ rotationY d = None /\ rotationZ d = None.

(** [src/components/MotionTracker.tsx], line 53-91.  [isRecording] is the
    prop the listener closed over and [now] the value of [Date.now()]. *)
Module MotionTrackerTsx.

Definition accelListener (isRecording : bool) (now : Z) (data : Measurement)
  : Capture :=
  if isRecording then
    mkCapture
      (Some {| type := accelerometer; timestamp := now;
               x := mx data; y := my data; z := mz data;
               rotationX := Some (my data);
               rotationY := Some (mx data);
               rotationZ := Some (mz data) |})
      true
  else nothing.

Definition gyroListener (isRecording : bool) (now : Z) (data : Measurement)
  : Capture :=
  if isRecording then
    mkCapture
      (Some {| type := gyroscope; timestamp := now;
               x := mx data; y := my data; z := mz data;
               rotationX := Some (mx data);
               rotationY := Some (my data);
               rotationZ := Some (mz data) |})
      true
  else nothing.

End MotionTrackerTsx.

(** [src/components/MotionTracker.js], line 105-146.  The rotation fields
    are read back from the animated shared values right after a spring
    towards the new reading was assigned to them; [motion] stands for what
    such a read returns for a given target.  [onDataPoint] is optional:
    [hasCallback] tells whether the parent passed one. *)
Module MotionTrackerJs.

Section Listeners.

Variable motion : float -> float.

Definition accelListener (isRecording hasCallback : bool) (now : Z)
  (accelData : Measurement) : Capture :=
  if isRecording then
    mkCapture
      (Some {| type := accelerometer; timestamp := now;
               x := mx accelData; y := my accelData; z := mz accelData;
               rotationX := Some (motion (my accelData));
               rotationY := Some (motion (mx accelData));
               rotationZ := Some (motion (mz accelData)) |})
      hasCallback
  else nothing.

Definition gyroListener (isRecording hasCallback : bool) (now : Z)
  (gyroData : Measurement) : Capture :=
  if isRecording then
    mkCapture
      (Some {| type := gyroscope; timestamp := now;
               x := mx gyroData; y := my gyroData; z := mz gyroData;
               rotationX := None; rotationY := None; rotationZ := None |})
      false
  else nothing.

End Listeners.

End MotionTrackerJs.

(** ** Concrete samples for the scenarios *)

(** An accelerometer sample as the [.tsx] listener builds it. *)
Definition accelSample (now : Z) (vx vy vz : float) : MotionData :=
  {| type := accelerometer; timestamp := now;
     x := vx; y := vy; z := vz;
     rotationX := Some vy; rotationY := Some vx; rotationZ := Some vz |}.

Definition frame0 : MotionData := accelSample 1000 0.125%float 0%float 1%float.
Definition frame1 : MotionData := accelSample 1100 0.25%float 0%float 1%float.
Definition frame2 : MotionData := accelSample 1200 0.375%float 0%float 1%float.
Definition frame3 : MotionData := accelSample 1300 0.5%float 0%float 1%float.
Definition frame4 : MotionData := accelSample 1400 0.625%float 0%float 1%float.

(** A finished recording of three samples with the cursor on the last. *)
Definition threeFrames : MotionStore.MotionState :=
  MotionStore.mkMotionState false [frame0; frame1; frame2] 2.

(** The log of the boundary scenario: five samples. *)
Definition fiveFrames : list MotionData :=
  [frame0; frame1; frame2; frame3; frame4].

(** [App] with the five samples recorded, then Play pressed, then the
    interval fired four times: playback stands on the last frame. *)
Definition appRecorded : App.AppState :=
  App.mkAppState fiveFrames false 0 false None [] 1%positive.

Definition appPlaying : App.AppState :=
  App.run App.handleStartPlayback appRecorded.

Definition appAtLastFrame : App.AppState :=
  let id := 1%positive in
  App.fire id (App.fire id (App.fire id (App.fire id appPlaying))).

(** [App] that was never played. *)
Definition appNeverPlayed : App.AppState := appRecorded.

(** The playback screen over a log of two samples, Play pressed. *)
Definition screenPlaying : VisualizeScreen.Screen :=
  VisualizeScreen.togglePlaying
    (VisualizeScreen.mkScreen
       (MotionStore.mkMotionState false [frame0; frame1] 0)
       false None 1%positive).

(** A gyroscope reading. *)
Definition spin : Measurement := mkMeasurement 1%float 2%float 3%float.

(** The samples the four listeners build. *)
Inductive produced : MotionData -> Prop :=
  | produced_tsx_accel (isRecording : bool) (now : Z) (data : Measurement)
      (d : MotionData) :
      built (MotionTrackerTsx.accelListener isRecording now data) = Some d ->
      produced d
  | produced_tsx_gyro (isRecording : bool) (now : Z) (data : Measurement)
      (d : MotionData) :
      built (MotionTrackerTsx.gyroListener isRecording now data) = Some d ->
      produced d
  | produced_js_accel (motion : float -> float) (isRecording hasCallback : bool)
      (now : Z) (data : Measurement) (d : MotionData) :
      built (MotionTrackerJs.accelListener motion isRecording hasCallback
               now data) = Some d ->
      produced d
  | produced_js_gyro (isRecording hasCallback : bool) (now : Z)
      (data : Measurement) (d : MotionData) :
      built (MotionTrackerJs.gyroListener isRecording hasCallback now data)
        = Some d ->
      produced d.

(** The data model's sentence on [derivedRotation]: no gyroscope sample
    that a listener builds carries a rotation field. *)
Definition rotation_only_for_accelerometer : Prop :=
  forall d : MotionData,
    produced d -> type d = gyroscope -> no_rotation d.

(** ** The events of [App.js] *)

Module AppEvents.

Import App.

(** What can happen to a mounted [App]: a button of the record or of the
    visualize tab is pressed, the tracker hands over a sample, or the host
    fires an interval. *)
Inductive Event : Type :=
  | PressStartRecording
  | PressStopRecording
  | DataPoint (dataPoint : MotionData)
  | PressPlay
  | PressStopPlayback
  | IntervalFires (id : IntervalId).

Definition dispatch (e : Event) (a : AppState) : AppState :=
  match e with
  | PressStartRecording => run handleStartRecording a
  | PressStopRecording => run handleStopRecording a
  | DataPoint d => run (handleDataPoint d) a
  | PressPlay => run handleStartPlayback a
  | PressStopPlayback => run handleStopPlayback a
  | IntervalFires id => fire id a
  end.

Definition after (events : list Event) (a : AppState) : AppState :=
  fold_left (fun st e => dispatch e st) events a.

(** The tracker hands over the samples one by one. *)
Definition receive (samples : list MotionData) (a : AppState) : AppState :=
  fold_left (fun st d => run (handleDataPoint d) st) samples a.

(** The host fires the interval [id] [k] times in a row. *)
Fixpoint fires (k : nat) (id : IntervalId) (a : AppState) : AppState :=
  match k with
  | O => a
  | S k' => fires k' id (fire id a)
  end.

(** The ref, the host's intervals and the playback hooks agree: with a null
    ref nothing is pending and nothing plays; otherwise playback is on, the
    one pending interval is the one in the ref, and the index is inside the
    log that its callback closed over. *)
Definition playback_consistent (a : AppState) : Prop :=
  handles_fresh a
  /\ match playbackIntervalRef a with
     | None => timers a = [] /\ isPlaying a = false
     | Some id =>
         isPlaying a = true
         /\ exists captured : list MotionData,
              timers a = [mkInterval id captured]
              /\ 0 <= currentFrameIndex a <= len captured - 1
     end.

End AppEvents.

(** ** The rest of [VisualizeScreen] *)

Module ScreenEvents.

Import VisualizeScreen.

(** The store changes under the mounted screen: the component renders
    again with the new store. *)
Definition onStoreChange (act : MotionStore.Action) (sc : Screen) : Screen :=
  rerender sc
    (mkScreen (MotionStore.run act (store sc)) (isPlaying sc)
       (playbackInterval sc) (nextHandle sc)).

(** The first render, [useState(false)], followed by the effect. *)
Definition mount (st : MotionStore.MotionState) (next : App.IntervalId)
  : Screen :=
  effect (mkScreen st false None next).

(** An interval is pending exactly when the effect's condition holds. *)
Definition synced (sc : Screen) : Prop :=
  playbackInterval sc <> None <->
  (isPlaying sc = true /\ MotionStore.recordedData (store sc) <> []).

(** [disabled] of the Previous button, line 53. *)
Definition previousDisabled (sc : Screen) : bool :=
  MotionStore.currentDataIndex (store sc) =? 0.

(** [disabled] of the Next button, line 62. *)
Definition nextDisabled (sc : Screen) : bool :=
  MotionStore.currentDataIndex (store sc) =?
    len (MotionStore.recordedData (store sc)) - 1.

End ScreenEvents.

(** ** [RecordScreen] *)

Module RecordScreen.

(** [recordedData[recordedData.length - 1]] *)
Definition lastDataPoint (s : MotionStore.MotionState) : Frame :=
  js_index (MotionStore.recordedData s) (len (MotionStore.recordedData s) - 1).

End RecordScreen.

(** ** [ThreeDVisualizer]: the message for a recorded frame *)

Module ThreeDVisualizer.

(** The object given to [JSON.stringify]; [type] is always
    ['orientation']. *)
Record Orientation : Type := mkOrientation {
  ox : float;
  oy : float;
  oz : float
}.

(** A number that [||] skips: 0, -0 or NaN. *)
Definition falsy (v : float) : bool := PrimFloat.eqb v 0%float || is_nan v.

(** [field || 0] for an optional numeric field. *)
Definition orZero (field : option float) : float :=
  match field with
  | Some v => if falsy v then 0%float else v
  | None => 0%float
  end.

(** The effect on [motionData]: what it posts to the web view, if it posts.
    [webView] tells whether [webViewRef.current] is set. *)
Definition playbackMessage (webView : bool) (motionData : Frame)
  : option Orientation :=
  match motionData with
  | Sample d =>
      if webView then
        Some {| ox := orZero (rotationX d);
                oy := orZero (rotationY d);
                oz := orZero (rotationZ d) |}
      else None
  | JsNull | JsUndefined => None
  end.

End ThreeDVisualizer.

(** ** Running actions of the store *)

Section StoreFacts.

Import MotionStore.

(** Unfolds an action down to the state it returns. *)
Ltac run_action :=
  unfold run, execState, action, startRecording, stopRecording, addDataPoint,
    clearRecordedData, nextDataPoint, previousDataPoint, setWith, set;
  cbn.

Lemma len_nonneg {A : Type} (l : list A) : 0 <= len l.
Proof. unfold len. lia. Qed.

Lemma len_app_one {A : Type} (l : list A) (a : A) : len (l ++ [a]) = len l + 1.
Proof. unfold len. rewrite length_app. cbn. lia. Qed.

Lemma len_zero_nil {A : Type} (l : list A) : len l = 0 <-> l = [].
Proof.
  unfold len. destruct l as [| a l]; cbn; split; intros H;
    try reflexivity; try discriminate; lia.
Qed.

Lemma len_pos_cons {A : Type} (l : list A) : l <> [] <-> 0 < len l.
Proof.
  pose proof (len_nonneg l). pose proof (len_zero_nil l) as [H1 H2].
  split.
  - intros Hne. destruct (Z.eq_dec (len l) 0) as [E | E]; [| lia].
    elim Hne. exact (H1 E).
  - intros Hpos E. rewrite (H2 E) in Hpos. lia.
Qed.

Lemma run_nextDataPoint (s : MotionState) :
  run nextDataPoint s =
    {| isRecording := isRecording s;
       recordedData := recordedData s;
       currentDataIndex :=
         Z.min (currentDataIndex s + 1) (Z.max 0 (len (recordedData s) - 1)) |}.
Proof. reflexivity. Qed.

Lemma run_previousDataPoint (s : MotionState) :
  run previousDataPoint s =
    {| isRecording := isRecording s;
       recordedData := recordedData s;
       currentDataIndex := Z.max 0 (currentDataIndex s - 1) |}.
Proof. reflexivity. Qed.

Lemma run_addDataPoint_recording (s : MotionState) (d : MotionData) :
  isRecording s = true ->
  run (addDataPoint d) s =
    {| isRecording := true;
       recordedData := recordedData s ++ [d];
       currentDataIndex := len (recordedData s) |}.
Proof.
  intros Hrec. run_action. rewrite Hrec. cbn.
  unfold merge. cbn. rewrite Hrec. reflexivity.
Qed.

Lemma addDataPoint_idle (s : MotionState) (d : MotionData) :
  isRecording s = false -> run (addDataPoint d) s = s.
Proof. intros Hidle. run_action. rewrite Hidle. reflexivity. Qed.

Lemma feed_idle (samples : list MotionData) (s : MotionState) :
  isRecording s = false -> feed samples s = s.
Proof.
  intros Hidle. induction samples as [| d rest IH]; [reflexivity |].
  cbn [feed fold_left]. rewrite addDataPoint_idle by exact Hidle. exact IH.
Qed.

(** Each action keeps the cursor within the log. *)
Lemma action_keeps_bounds (op : Op) (s : MotionState) :
  cursor_in_bounds s -> cursor_in_bounds (run (action op) s).
Proof.
  unfold cursor_in_bounds. intros Hb. pose proof (len_nonneg (recordedData s)).
  destruct op as [| | d | | |]; cbn [action].
  - cbn. lia.
  - cbn. exact Hb.
  - destruct (isRecording s) eqn:Hrec.
    + rewrite run_addDataPoint_recording by exact Hrec. cbn.
      rewrite len_app_one. lia.
    + rewrite addDataPoint_idle by exact Hrec. exact Hb.
  - cbn. lia.
  - rewrite run_nextDataPoint. cbn. lia.
  - rewrite run_previousDataPoint. cbn. lia.
Qed.

Lemma reachable_in_bounds (s : MotionState) :
  reachable s -> cursor_in_bounds s.
Proof.
  induction 1 as [| op s _ IH].
  - unfold cursor_in_bounds. cbn. lia.
  - apply action_keeps_bounds, IH.
Qed.

(** Navigation moves the cursor and nothing else. *)
Lemma navigate_frame (ops : list bool) (s : MotionState) :
  isRecording (navigate ops s) = isRecording s
  /\ recordedData (navigate ops s) = recordedData s.
Proof.
  unfold navigate. revert s.
  induction ops as [| forward ops IH]; intros s; [split; reflexivity |].
  cbn [fold_left].
  destruct (IH (run (if forward then nextDataPoint else previousDataPoint) s))
    as [H1 H2].
  rewrite H1, H2. destruct forward; split; reflexivity.
Qed.

Lemma js_index_last (l : list MotionData) (d : MotionData) :
  js_index (l ++ [d]) (len l) = Sample d.
Proof.
  unfold js_index, len.
  destruct (Z.ltb_spec (Z.of_nat (length l)) 0) as [Hneg | _]; [lia |].
  rewrite Nat2Z.id, nth_error_app2 by lia.
  rewrite Nat.sub_diag. reflexivity.
Qed.

(** ** Recording *)

(** C1.  While [isRecording] is false, [addDataPoint] returns the state it
    was given, with the log, the cursor and the flag untouched; so does any
    sequence of such calls, and the length of the log stays what it was.
    The call returns normally: [addDataPoint] is a total transformer. *)
Theorem addDataPoint_noop_when_idle :
  forall (s : MotionState) (d : MotionData) (samples : list MotionData),
    isRecording s = false ->
    run (addDataPoint d) s = s
    /\ feed samples s = s
    /\ len (recordedData (feed samples s)) = len (recordedData s).
Proof.
  intros s d samples Hidle.
  pose proof (feed_idle samples s Hidle) as Hfeed.
  repeat split.
  - apply addDataPoint_idle, Hidle.
  - exact Hfeed.
  - rewrite Hfeed. reflexivity.
Qed.

Lemma addDataPoint_noop_when_idle_witness :
  isRecording threeFrames = false
  /\ run (addDataPoint frame3) threeFrames = threeFrames
  /\ feed [frame3; frame4] threeFrames = threeFrames
  /\ len (recordedData (feed [frame3; frame4] threeFrames)) = 3.
Proof.
  split; [reflexivity |].
  apply (addDataPoint_noop_when_idle threeFrames frame3 [frame3; frame4]).
  reflexivity.
Defined.

(** C2.  Whatever the prior state, [startRecording] yields the empty log,
    cursor 0 and [isRecording] true; called a second time while recording,
    it drops what the first session had recorded. *)
Theorem startRecording_resets :
  forall s : MotionState,
    run startRecording s =
      {| isRecording := true; recordedData := []; currentDataIndex := 0 |}
    /\ forall samples : list MotionData,
         run startRecording (feed samples (run startRecording s)) =
           {| isRecording := true; recordedData := []; currentDataIndex := 0 |}.
Proof.
  intros s. split; [reflexivity |]. intros samples. reflexivity.
Qed.

(** C10.  An [addDataPoint] that is accepted appends the sample and puts
    the cursor on it: the new cursor is the length the log had before, the
    sample found there is the new one, and wherever [nextDataPoint] and
    [previousDataPoint] had left the cursor makes no difference. *)
Theorem addDataPoint_moves_cursor_to_newest :
  forall (s : MotionState) (d : MotionData),
    isRecording s = true ->
    let s' := run (addDataPoint d) s in
    recordedData s' = recordedData s ++ [d]
    /\ currentDataIndex s' = len (recordedData s)
    /\ currentDataIndex s' = len (recordedData s') - 1
    /\ js_index (recordedData s') (currentDataIndex s') = Sample d
    /\ isRecording s' = true
    /\ forall ops : list bool,
         run (addDataPoint d) (navigate ops s) = s'.
Proof.
  intros s d Hrec s'. subst s'.
  rewrite (run_addDataPoint_recording s d Hrec).
  cbn [recordedData currentDataIndex isRecording].
  repeat split.
  - rewrite len_app_one. lia.
  - apply js_index_last.
  - intros ops. destruct (navigate_frame ops s) as [Hr Hd].
    rewrite run_addDataPoint_recording by (rewrite Hr; exact Hrec).
    rewrite Hd. reflexivity.
Qed.

Lemma addDataPoint_moves_cursor_to_newest_witness :
  let s := run startRecording threeFrames in
  let s2 := feed [frame0; frame1; frame2] s in
  isRecording s2 = true
  /\ currentDataIndex (run (addDataPoint frame3) s2) = 3
  /\ run (addDataPoint frame3) (navigate [false; false; true] s2) =
       run (addDataPoint frame3) s2.
Proof.
  split; [reflexivity |].
  pose proof (addDataPoint_moves_cursor_to_newest
                (feed [frame0; frame1; frame2] (run startRecording threeFrames))
                frame3 eq_refl) as H.
  cbv zeta in H. destruct H as (_ & Hc & _ & _ & _ & Hnav).
  split; [exact Hc | apply Hnav].
Defined.

(** ** Navigation *)

(** The finished recording of three samples is a state of the store:
    start, three samples, stop. *)
Lemma threeFrames_reachable : reachable threeFrames.
Proof.
  change threeFrames with
    (run (action OpStopRecording)
       (run (action (OpAddDataPoint frame2))
          (run (action (OpAddDataPoint frame1))
             (run (action (OpAddDataPoint frame0))
                (run (action OpStartRecording) initialState))))).
  repeat apply reach_step. apply reach_init.
Qed.

(** C3.  [nextDataPoint] and [previousDataPoint] change the cursor only.
    From any state, [nextDataPoint] leaves it at most at the last index (0
    for an empty log) and [previousDataPoint] at least at 0;
    [previousDataPoint] at index 0 and [nextDataPoint] at the last index of
    a non-empty log return the state they were given.  With the cursor
    inside a non-empty log, both leave it inside [0 .. length-1]; with the
    cursor at 0 on an empty log, both return the state they were given.
    Every state the store goes through is of one of these two kinds, so in
    every such state the cursor stays inside a non-empty log and nothing
    changes on an empty one.  Both actions return normally. *)
Theorem navigation_saturates :
  forall s : MotionState,
    let n := len (recordedData s) in
    let next := run nextDataPoint s in
    let prev := run previousDataPoint s in
    (recordedData next = recordedData s /\ isRecording next = isRecording s)
    /\ (recordedData prev = recordedData s /\ isRecording prev = isRecording s)
    /\ currentDataIndex next <= Z.max 0 (n - 1)
    /\ 0 <= currentDataIndex prev
    /\ (currentDataIndex s = 0 -> prev = s)
    /\ (recordedData s <> [] -> currentDataIndex s = n - 1 -> next = s)
    /\ (recordedData s <> [] -> 0 <= currentDataIndex s <= n - 1 ->
        0 <= currentDataIndex next <= n - 1
        /\ 0 <= currentDataIndex prev <= n - 1)
    /\ (recordedData s = [] -> currentDataIndex s = 0 ->
        next = s /\ prev = s)
    /\ (reachable s ->
        (recordedData s <> [] ->
         0 <= currentDataIndex next <= n - 1
         /\ 0 <= currentDataIndex prev <= n - 1)
        /\ (recordedData s = [] -> next = s /\ prev = s)).
Proof.
  intros s n next prev. subst n next prev.
  rewrite run_nextDataPoint, run_previousDataPoint.
  assert (Hinside :
    recordedData s <> [] ->
    0 <= currentDataIndex s <= len (recordedData s) - 1 ->
    0 <= Z.min (currentDataIndex s + 1) (Z.max 0 (len (recordedData s) - 1))
      <= len (recordedData s) - 1
    /\ 0 <= Z.max 0 (currentDataIndex s - 1) <= len (recordedData s) - 1).
  { intros Hne Hc. apply len_pos_cons in Hne. lia. }
  assert (Hempty :
    recordedData s = [] -> currentDataIndex s = 0 ->
    {| isRecording := isRecording s; recordedData := recordedData s;
       currentDataIndex :=
         Z.min (currentDataIndex s + 1)
               (Z.max 0 (len (recordedData s) - 1)) |} = s
    /\ {| isRecording := isRecording s; recordedData := recordedData s;
          currentDataIndex := Z.max 0 (currentDataIndex s - 1) |} = s).
  { destruct s as [r l c]. cbn [recordedData currentDataIndex isRecording].
    intros Hnil Hc. subst l c. split; reflexivity. }
  cbn [recordedData currentDataIndex isRecording].
  split; [split; reflexivity |]. split; [split; reflexivity |].
  split; [lia |]. split; [lia |].
  split; [| split; [| split; [exact Hinside | split; [exact Hempty |]]]].
  - intros Hc. destruct s as [r l c]. cbn in Hc. subst c. reflexivity.
  - intros Hne Hc. apply len_pos_cons in Hne.
    destruct s as [r l c]. cbn [recordedData currentDataIndex] in *.
    f_equal. lia.
  - intros Hreach. apply reachable_in_bounds in Hreach.
    unfold cursor_in_bounds in Hreach. split.
    + intros Hne. apply Hinside; [exact Hne |].
      apply len_pos_cons in Hne. lia.
    + intros Hnil. apply Hempty; [exact Hnil |].
      rewrite Hnil in Hreach. cbn in Hreach. lia.
Qed.

Lemma navigation_saturates_witness :
  (reachable threeFrames
   /\ recordedData threeFrames <> []
   /\ currentDataIndex threeFrames = len (recordedData threeFrames) - 1
   /\ run nextDataPoint threeFrames = threeFrames
   /\ 0 <= currentDataIndex (run previousDataPoint threeFrames) <= 2)
  /\ (reachable initialState
      /\ recordedData initialState = []
      /\ currentDataIndex initialState = 0
      /\ run previousDataPoint initialState = initialState
      /\ run nextDataPoint initialState = initialState).
Proof.
  pose proof (navigation_saturates threeFrames) as H3.
  pose proof (navigation_saturates initialState) as He.
  cbv zeta in H3, He.
  destruct H3 as (_ & _ & _ & _ & _ & Hlast & _ & _ & Hreach3).
  destruct He as (_ & _ & _ & _ & _ & _ & _ & _ & Hreach0).
  assert (Hne : recordedData threeFrames <> []) by discriminate.
  split.
  - split; [exact threeFrames_reachable |].
    split; [exact Hne |]. split; [reflexivity |].
    split; [exact (Hlast Hne eq_refl) |].
    destruct (Hreach3 threeFrames_reachable) as [Hin _].
    destruct (Hin Hne) as [_ Hprev]. exact Hprev.
  - split; [exact reach_init |].
    split; [reflexivity |]. split; [reflexivity |].
    destruct (Hreach0 reach_init) as [_ Hempty].
    destruct (Hempty eq_refl) as [Hn Hp]. split; assumption.
Defined.

(** C7.  Each of the six actions, applied to a state whose cursor
    satisfies [0 <= currentDataIndex <= max 0 (length - 1)], returns a state
    whose cursor satisfies it again. *)
Theorem cursor_bounds_preserved :
  forall (op : Op) (s : MotionState),
    cursor_in_bounds s -> cursor_in_bounds (run (action op) s).
Proof.
  intros op s Hb. apply action_keeps_bounds, Hb.
Qed.

Lemma cursor_bounds_preserved_witness :
  cursor_in_bounds threeFrames
  /\ cursor_in_bounds (run (action OpNextDataPoint) threeFrames)
  /\ cursor_in_bounds (run (action (OpAddDataPoint frame3))
                         (run (action OpStartRecording) threeFrames)).
Proof.
  assert (Hb : cursor_in_bounds threeFrames) by (unfold cursor_in_bounds; cbn; lia).
  split; [exact Hb |]. split.
  - apply (cursor_bounds_preserved OpNextDataPoint threeFrames Hb).
  - apply (cursor_bounds_preserved (OpAddDataPoint frame3)).
    apply (cursor_bounds_preserved OpStartRecording threeFrames Hb).
Defined.

End StoreFacts.

(** ** Playback in [App.js] *)

Section AppFacts.

Import App.

Ltac run_handler :=
  unfold run, execState, fire, tick, handleStartPlayback, handleStopPlayback,
    clearPlaybackInterval, setInterval, clearInterval, setPlaybackIntervalRef,
    setIsPlaying, setCurrentFrameIndex, setRecordedData, setIsRecording;
  cbn.

Lemma run_clearPlaybackInterval_pending (a : AppState) (id : IntervalId) :
  playbackIntervalRef a = Some id ->
  run clearPlaybackInterval a =
    mkAppState (recordedData a) (isPlaying a) (currentFrameIndex a)
      (isRecording a) None
      (filter (fun iv => negb (Pos.eqb (handle iv) id)) (timers a))
      (nextHandle a).
Proof. intros Href. run_handler. rewrite Href. reflexivity. Qed.

Lemma run_clearPlaybackInterval_absent (a : AppState) :
  playbackIntervalRef a = None -> run clearPlaybackInterval a = a.
Proof. intros Href. run_handler. rewrite Href. reflexivity. Qed.

Lemma run_handleStopPlayback (a : AppState) :
  run handleStopPlayback a =
    run clearPlaybackInterval
      (mkAppState (recordedData a) false (currentFrameIndex a)
         (isRecording a) (playbackIntervalRef a) (timers a) (nextHandle a)).
Proof. reflexivity. Qed.

Lemma playbackIntervalRef_cleared (a : AppState) :
  playbackIntervalRef (run clearPlaybackInterval a) = None.
Proof.
  destruct (playbackIntervalRef a) as [id |] eqn:Href.
  - rewrite (run_clearPlaybackInterval_pending a id Href). reflexivity.
  - rewrite (run_clearPlaybackInterval_absent a Href). exact Href.
Qed.

Lemma isPlaying_clearPlaybackInterval (a : AppState) :
  isPlaying (run clearPlaybackInterval a) = isPlaying a.
Proof.
  destruct (playbackIntervalRef a) as [id |] eqn:Href.
  - rewrite (run_clearPlaybackInterval_pending a id Href). reflexivity.
  - rewrite (run_clearPlaybackInterval_absent a Href). reflexivity.
Qed.

(** Once [clearInterval id] has run, no interval with that handle is left. *)
Lemma filter_cancels (id : IntervalId) (tm : list Interval) (iv : Interval) :
  In iv (filter (fun iv' => negb (Pos.eqb (handle iv') id)) tm) ->
  handle iv <> id.
Proof.
  intros Hin. apply filter_In in Hin. destruct Hin as [_ Hneq].
  apply negb_true_iff, Pos.eqb_neq in Hneq. exact Hneq.
Qed.

Lemma run_tick_at_end (captured : list MotionData) (a : AppState) :
  currentFrameIndex a >= len captured - 1 ->
  run (tick captured) a =
    let b := run clearPlaybackInterval a in
    mkAppState (recordedData b) false 0 (isRecording b)
      (playbackIntervalRef b) (timers b) (nextHandle b).
Proof.
  destruct a as [rd p i r ref tm nh]. cbn [currentFrameIndex]. intros Hend.
  run_handler.
  destruct (Z.geb_spec i (len captured - 1)) as [_ | Hlt]; [| lia].
  destruct ref as [id |]; reflexivity.
Qed.

Lemma run_tick_before_end (captured : list MotionData) (a : AppState) :
  currentFrameIndex a < len captured - 1 ->
  run (tick captured) a =
    mkAppState (recordedData a) (isPlaying a) (currentFrameIndex a + 1)
      (isRecording a) (playbackIntervalRef a) (timers a) (nextHandle a).
Proof.
  intros Hlt. unfold run, execState, tick. cbn.
  destruct (Z.geb_spec (currentFrameIndex a) (len captured - 1)) as [Hge | _];
    [lia |].
  reflexivity.
Qed.

Lemma find_unused_handle (id : IntervalId) (tm : list Interval) :
  (forall iv, In iv tm -> (handle iv < id)%positive) ->
  find (fun iv => Pos.eqb (handle iv) id) tm = None.
Proof.
  intros Hfresh. induction tm as [| iv tm IH]; [reflexivity |].
  cbn [find].
  destruct (Pos.eqb_spec (handle iv) id) as [Heq | _].
  - pose proof (Hfresh iv (or_introl eq_refl)) as Hlt. lia.
  - apply IH. intros iv' Hin. apply Hfresh. right. exact Hin.
Qed.

Lemma find_appended (id : IntervalId) (tm : list Interval) (iv : Interval) :
  find (fun iv' => Pos.eqb (handle iv') id) tm = None ->
  handle iv = id ->
  find (fun iv' => Pos.eqb (handle iv') id) (tm ++ [iv]) = Some iv.
Proof.
  intros Hnone Hid. induction tm as [| iv0 tm IH]; cbn [app find] in *.
  - rewrite Hid, Pos.eqb_refl. reflexivity.
  - destruct (Pos.eqb (handle iv0) id); [discriminate | exact (IH Hnone)].
Qed.

(** Play on an empty log does nothing: no interval is created. *)
Lemma handleStartPlayback_empty (a : AppState) :
  recordedData a = [] -> run handleStartPlayback a = a.
Proof.
  destruct a as [rd p i r ref tm nh]. cbn [recordedData]. intros ->.
  reflexivity.
Qed.

(** Play on a recorded log: playback is on index 0, and the one interval
    under the handle in the ref is the new one, whose callback closed over
    the log as it is now. *)
Lemma handleStartPlayback_starts (a : AppState) :
  recordedData a <> [] ->
  handles_fresh a ->
  let a' := run handleStartPlayback a in
  recordedData a' = recordedData a
  /\ isPlaying a' = true
  /\ currentFrameIndex a' = 0
  /\ playbackIntervalRef a' = Some (nextHandle a)
  /\ find (fun iv => Pos.eqb (handle iv) (nextHandle a)) (timers a') =
       Some (mkInterval (nextHandle a) (recordedData a)).
Proof.
  destruct a as [rd p i r ref tm nh]. unfold handles_fresh.
  cbn [recordedData timers nextHandle]. intros Hne Hfresh.
  apply len_pos_cons in Hne.
  unfold run, execState, handleStartPlayback. cbn.
  destruct (Z.eqb_spec (len rd) 0) as [Hz | _]; [lia |].
  destruct ref as [id |]; run_handler; repeat split.
  - apply find_appended; [| reflexivity].
    apply find_unused_handle. intros iv Hin.
    apply filter_In in Hin. destruct Hin as [Hin _]. exact (Hfresh iv Hin).
  - apply find_appended; [| reflexivity].
    apply find_unused_handle. exact Hfresh.
Qed.

End AppFacts.

Section AppPlayback.

Import App.

(** C4.  A firing of the interval that [playbackIntervalRef] holds, while
    [isPlaying] is true.  [recordedData] in the callback is the log the
    callback closed over.  With [currentFrameIndex >= length - 1] the
    firing sets the index to 0, clears the interval (the ref is null and the
    host has no interval under that handle any more) and sets [isPlaying]
    to false.  With a smaller index it adds exactly 1 to the index and
    leaves [isPlaying], the ref and the host's intervals as they were. *)
Theorem tick_wraps_and_stops_at_end :
  forall (a : AppState) (iv : Interval),
    isPlaying a = true ->
    playbackIntervalRef a = Some (handle iv) ->
    find (fun iv' => Pos.eqb (handle iv') (handle iv)) (timers a) = Some iv ->
    let n := len (closure_recordedData iv) in
    let a' := fire (handle iv) a in
    recordedData a' = recordedData a
    /\ (currentFrameIndex a >= n - 1 ->
        currentFrameIndex a' = 0
        /\ isPlaying a' = false
        /\ playbackIntervalRef a' = None
        /\ cancelled (handle iv) a')
    /\ (currentFrameIndex a < n - 1 ->
        currentFrameIndex a' = currentFrameIndex a + 1
        /\ isPlaying a' = true
        /\ playbackIntervalRef a' = Some (handle iv)
        /\ timers a' = timers a).
Proof.
  intros a iv Hplay Href Hfind n a'. subst n a'.
  unfold fire. rewrite Hfind.
  split; [| split].
  - destruct (Z_lt_ge_dec (currentFrameIndex a)
               (len (closure_recordedData iv) - 1)) as [Hlt | Hge].
    + rewrite (run_tick_before_end _ a Hlt). reflexivity.
    + rewrite (run_tick_at_end _ a Hge).
      rewrite (run_clearPlaybackInterval_pending a _ Href). reflexivity.
  - intros Hge. rewrite (run_tick_at_end _ a Hge).
    rewrite (run_clearPlaybackInterval_pending a _ Href).
    cbn. repeat split. intros iv' Hin. exact (filter_cancels _ _ _ Hin).
  - intros Hlt. rewrite (run_tick_before_end _ a Hlt).
    cbn. repeat split; assumption.
Qed.

(** The boundary scenario: five samples, playback on index 4, one firing. *)
Lemma tick_wraps_and_stops_at_end_witness :
  let iv := mkInterval 1%positive fiveFrames in
  isPlaying appAtLastFrame = true
  /\ playbackIntervalRef appAtLastFrame = Some (handle iv)
  /\ currentFrameIndex appAtLastFrame = 4
  /\ currentFrameIndex (fire (handle iv) appAtLastFrame) = 0
  /\ isPlaying (fire (handle iv) appAtLastFrame) = false
  /\ playbackIntervalRef (fire (handle iv) appAtLastFrame) = None
  /\ cancelled (handle iv) (fire (handle iv) appAtLastFrame)
  /\ currentFrameIndex (fire (handle iv) appPlaying) = 1.
Proof.
  intros iv.
  pose proof (tick_wraps_and_stops_at_end appAtLastFrame iv
                eq_refl eq_refl eq_refl) as Hlast.
  pose proof (tick_wraps_and_stops_at_end appPlaying iv
                eq_refl eq_refl eq_refl) as Hfirst.
  cbv zeta in Hlast, Hfirst.
  destruct Hlast as (_ & Hend & _). destruct Hfirst as (_ & _ & Hstep).
  destruct Hend as (H0 & Hp & Hr & Hc); [vm_compute; discriminate |].
  destruct Hstep as (H1 & _); [reflexivity |].
  repeat split; try assumption.
Defined.

(** C9.  [handleStopPlayback] twice gives the state that one call gives,
    from any state; that state has [isPlaying] false and a null ref.  With a
    null ref, that is when no interval was started or it is already
    cleared, [clearPlaybackInterval] returns the state unchanged. *)
Theorem handleStopPlayback_idempotent :
  forall a : AppState,
    run handleStopPlayback (run handleStopPlayback a) =
      run handleStopPlayback a
    /\ isPlaying (run handleStopPlayback a) = false
    /\ playbackIntervalRef (run handleStopPlayback a) = None
    /\ run clearPlaybackInterval (run handleStopPlayback a) =
         run handleStopPlayback a
    /\ run clearPlaybackInterval (run clearPlaybackInterval a) =
         run clearPlaybackInterval a
    /\ forall rd p i r tm nh,
         run clearPlaybackInterval (mkAppState rd p i r None tm nh) =
           mkAppState rd p i r None tm nh.
Proof.
  intros a.
  assert (Hnull : playbackIntervalRef (run handleStopPlayback a) = None).
  { rewrite run_handleStopPlayback. apply playbackIntervalRef_cleared. }
  assert (Hstopped : isPlaying (run handleStopPlayback a) = false).
  { rewrite run_handleStopPlayback, isPlaying_clearPlaybackInterval.
    reflexivity. }
  split; [| split; [exact Hstopped | split; [exact Hnull | split; [| split]]]].
  - rewrite (run_handleStopPlayback (run handleStopPlayback a)).
    destruct (run handleStopPlayback a) as [rd p i r ref tm nh].
    cbn [isPlaying playbackIntervalRef recordedData currentFrameIndex
         isRecording timers nextHandle] in *.
    subst p ref. reflexivity.
  - apply run_clearPlaybackInterval_absent, Hnull.
  - apply run_clearPlaybackInterval_absent, playbackIntervalRef_cleared.
  - intros. reflexivity.
Qed.

End AppPlayback.

(** ** Playback in [VisualizeScreen] *)

Section ScreenPlayback.

Import MotionStore VisualizeScreen.

(** A firing changes the cursor only, so no dependency of the effect
    changes and the effect does not run again. *)
Lemma tick_keeps_interval (sc : Screen) :
  tick sc =
    mkScreen (run nextDataPoint (store sc)) (isPlaying sc)
      (playbackInterval sc) (nextHandle sc).
Proof.
  unfold tick, rerender, deps, deps_eqb.
  cbn [store isPlaying fst snd].
  rewrite run_nextDataPoint. cbn [recordedData].
  rewrite Bool.eqb_reflx, Z.eqb_refl. reflexivity.
Qed.

Lemma ticks_frame (k : nat) (sc : Screen) :
  isPlaying (ticks k sc) = isPlaying sc
  /\ playbackInterval (ticks k sc) = playbackInterval sc
  /\ recordedData (store (ticks k sc)) = recordedData (store sc)
  /\ isRecording (store (ticks k sc)) = isRecording (store sc).
Proof.
  revert sc. induction k as [| k IH]; intros sc.
  - repeat split.
  - cbn [ticks]. destruct (IH (tick sc)) as (H1 & H2 & H3 & H4).
    rewrite H1, H2, H3, H4, tick_keeps_interval. repeat split.
Qed.

(** The cursor after [k] firings: it climbs by one per firing until the
    last index and stays there. *)
Lemma ticks_cursor (k : nat) (sc : Screen) :
  cursor_in_bounds (store sc) ->
  currentDataIndex (store (ticks k sc)) =
    Z.min (currentDataIndex (store sc) + Z.of_nat k)
          (Z.max 0 (len (recordedData (store sc)) - 1)).
Proof.
  revert sc. induction k as [| k IH]; intros sc Hb.
  - cbn [ticks]. unfold cursor_in_bounds in Hb. lia.
  - cbn [ticks]. rewrite IH.
    + rewrite tick_keeps_interval. cbn [store].
      rewrite run_nextDataPoint. cbn [currentDataIndex recordedData].
      unfold cursor_in_bounds in Hb. lia.
    + rewrite tick_keeps_interval. cbn [store].
      apply (action_keeps_bounds OpNextDataPoint), Hb.
Qed.

Lemma js_index_in_range (l : list MotionData) (i : Z) :
  0 <= i < len l -> exists d, js_index l i = Sample d.
Proof.
  unfold js_index, len. intros Hi.
  destruct (Z.ltb_spec i 0) as [Hneg | _]; [lia |].
  destruct (nth_error l (Z.to_nat i)) as [d |] eqn:Hnth.
  - exists d. reflexivity.
  - apply nth_error_None in Hnth. lia.
Qed.

Lemma js_index_not_null (l : list MotionData) (i : Z) : js_index l i <> JsNull.
Proof.
  unfold js_index. destruct (i <? 0); [discriminate |].
  destruct (nth_error l (Z.to_nat i)); discriminate.
Qed.

Lemma currentMotionData_nonempty (sc : Screen) :
  recordedData (store sc) <> [] ->
  currentMotionData sc =
    js_index (recordedData (store sc))
      (Z.rem (currentDataIndex (store sc)) (len (recordedData (store sc)))).
Proof.
  intros Hne. apply len_pos_cons in Hne. unfold currentMotionData. cbv zeta.
  destruct (Z.gtb_spec (len (recordedData (store sc))) 0) as [_ | Hle];
    [reflexivity | lia].
Qed.

(** C5, as the code has it.  On a non-empty log with [isPlaying] true and
    the cursor within the log, after any number of firings [isPlaying] is
    still true and the interval is the same one, never cleared; the frame
    shown is [recordedData[currentDataIndex % length]]; the cursor is
    [min (i + k) (length - 1)], so the frame shown is the one at that index:
    playback runs up to the last sample and stays on it, the modulo never
    taking effect. *)
Theorem playback_keeps_ticking_and_saturates :
  forall (sc : Screen) (k : nat),
    isPlaying sc = true ->
    recordedData (store sc) <> [] ->
    cursor_in_bounds (store sc) ->
    let log := recordedData (store sc) in
    let i := currentDataIndex (store sc) in
    let sc' := ticks k sc in
    isPlaying sc' = true
    /\ playbackInterval sc' = playbackInterval sc
    /\ recordedData (store sc') = log
    /\ currentMotionData sc' =
         js_index log (Z.rem (currentDataIndex (store sc')) (len log))
    /\ currentDataIndex (store sc') = Z.min (i + Z.of_nat k) (len log - 1)
    /\ currentMotionData sc' =
         js_index log (Z.min (i + Z.of_nat k) (len log - 1))
    /\ (len log - 1 <= i + Z.of_nat k ->
        currentMotionData sc' = js_index log (len log - 1)).
Proof.
  intros sc k Hplay Hne Hb log i sc'. subst log i sc'.
  destruct (ticks_frame k sc) as (Hp & Hi & Hd & _).
  pose proof (ticks_cursor k sc Hb) as Hc.
  pose proof Hne as Hpos. apply len_pos_cons in Hpos.
  assert (Hcur : currentDataIndex (store (ticks k sc)) =
                 Z.min (currentDataIndex (store sc) + Z.of_nat k)
                       (len (recordedData (store sc)) - 1)).
  { rewrite Hc. lia. }
  assert (Hshown : currentMotionData (ticks k sc) =
                   js_index (recordedData (store sc))
                     (Z.rem (currentDataIndex (store (ticks k sc)))
                            (len (recordedData (store sc))))).
  { rewrite currentMotionData_nonempty by (rewrite Hd; exact Hne).
    rewrite Hd. reflexivity. }
  assert (Hsat : currentMotionData (ticks k sc) =
                 js_index (recordedData (store sc))
                   (Z.min (currentDataIndex (store sc) + Z.of_nat k)
                          (len (recordedData (store sc)) - 1))).
  { rewrite Hshown, Hcur. f_equal. apply Z.rem_small.
    unfold cursor_in_bounds in Hb. lia. }
  repeat split; try assumption.
  - rewrite Hp. exact Hplay.
  - intros Hpast. rewrite Hsat. f_equal. lia.
Qed.

Lemma playback_keeps_ticking_and_saturates_witness :
  isPlaying screenPlaying = true
  /\ recordedData (store screenPlaying) <> []
  /\ cursor_in_bounds (store screenPlaying)
  /\ isPlaying (ticks 7 screenPlaying) = true
  /\ playbackInterval (ticks 7 screenPlaying) = Some 1%positive
  /\ currentDataIndex (store (ticks 7 screenPlaying)) = 1
  /\ currentMotionData (ticks 7 screenPlaying) = Sample frame1.
Proof.
  assert (Hne : recordedData (store screenPlaying) <> []) by discriminate.
  assert (Hb : cursor_in_bounds (store screenPlaying))
    by (unfold cursor_in_bounds; cbn; lia).
  pose proof (playback_keeps_ticking_and_saturates screenPlaying 7
                eq_refl Hne Hb) as H.
  cbv zeta in H. destruct H as (Hp & Hi & _ & _ & Hc & Hs & _).
  split; [reflexivity |]. split; [exact Hne |]. split; [exact Hb |].
  split; [exact Hp |]. split; [exact Hi |].
  split; [exact Hc | exact Hs].
Defined.

(** C5, as it is worded, fails.  Two samples, Play pressed on index 0: two
    firings later a looping playback shows [frame0] again; the screen shows
    [frame1], and keeps showing it. *)
Lemma playback_does_not_loop :
  isPlaying screenPlaying = true
  /\ recordedData (store screenPlaying) = [frame0; frame1]
  /\ currentDataIndex (store screenPlaying) = 0
  /\ currentMotionData (ticks 2 screenPlaying) = Sample frame1
  /\ js_index [frame0; frame1] (Z.rem (0 + 2) 2) = Sample frame0
  /\ ~ loops screenPlaying.
Proof.
  repeat split. intros Hloops. specialize (Hloops 2%nat).
  vm_compute in Hloops. discriminate Hloops.
Qed.

End ScreenPlayback.

(** ** The frame handed to the renderer *)

Section CurrentFrame.

(** C6, as the code has it.  [VisualizeScreen]: the frame is [null] exactly
    when the log is empty, and with the cursor inside a non-empty log it is
    the sample at the cursor.  [App]: the frame is [null] exactly when the
    log is empty or [isPlaying] is false, and while playing with the index
    inside a non-empty log it is the sample at the index. *)
Theorem currentFrame_null_cases :
  (forall sc : VisualizeScreen.Screen,
     let log := MotionStore.recordedData (VisualizeScreen.store sc) in
     let i := MotionStore.currentDataIndex (VisualizeScreen.store sc) in
     (VisualizeScreen.currentMotionData sc = JsNull <-> log = [])
     /\ (0 <= i < len log ->
         VisualizeScreen.currentMotionData sc = js_index log i
         /\ exists d, VisualizeScreen.currentMotionData sc = Sample d))
  /\ (forall a : App.AppState,
        let log := App.recordedData a in
        let i := App.currentFrameIndex a in
        (App.getCurrentMotionData a = JsNull <->
           log = [] \/ App.isPlaying a = false)
        /\ (App.isPlaying a = true -> 0 <= i < len log ->
            App.getCurrentMotionData a = js_index log i
            /\ exists d, App.getCurrentMotionData a = Sample d)).
Proof.
  split.
  - intros sc log i. subst log i.
    split; [split |].
    + intros Hnull.
      destruct (MotionStore.recordedData (VisualizeScreen.store sc))
        as [| d l] eqn:Hlog; [reflexivity |].
      rewrite (currentMotionData_nonempty sc) in Hnull
        by (rewrite Hlog; discriminate).
      elim (js_index_not_null _ _ Hnull).
    + intros Hnil. unfold VisualizeScreen.currentMotionData.
      rewrite Hnil. reflexivity.
    + intros Hi.
      assert (Hshown : VisualizeScreen.currentMotionData sc =
                js_index (MotionStore.recordedData (VisualizeScreen.store sc))
                  (MotionStore.currentDataIndex (VisualizeScreen.store sc))).
      { rewrite (currentMotionData_nonempty sc) by (apply len_pos_cons; lia).
        rewrite Z.rem_small by exact Hi. reflexivity. }
      split; [exact Hshown |]. rewrite Hshown.
      apply js_index_in_range, Hi.
  - intros a log i. subst log i. unfold App.getCurrentMotionData.
    split; [split |].
    + destruct (Z.eqb_spec (len (App.recordedData a)) 0) as [Hz | Hnz].
      * intros _. left. apply len_zero_nil, Hz.
      * destruct (App.isPlaying a); cbn.
        -- intros Hnull. elim (js_index_not_null _ _ Hnull).
        -- intros _. right. reflexivity.
    + intros [Hnil | Hstopped].
      * rewrite Hnil. reflexivity.
      * rewrite Hstopped, Bool.orb_true_r. reflexivity.
    + intros Hplay Hi. rewrite Hplay.
      destruct (Z.eqb_spec (len (App.recordedData a)) 0) as [Hz | Hnz];
        [lia |].
      cbn. split; [reflexivity |]. apply js_index_in_range, Hi.
Qed.

Lemma currentFrame_null_cases_witness :
  VisualizeScreen.currentMotionData screenPlaying = Sample frame0
  /\ App.getCurrentMotionData appAtLastFrame = Sample frame4
  /\ App.getCurrentMotionData appNeverPlayed = JsNull.
Proof.
  destruct currentFrame_null_cases as [Hscreen Happ].
  pose proof (Hscreen screenPlaying) as Hs.
  pose proof (Happ appAtLastFrame) as Hlast.
  pose proof (Happ appNeverPlayed) as Hnever.
  cbv zeta in Hs, Hlast, Hnever.
  destruct Hs as (_ & Hshown). destruct Hlast as (_ & Hframe).
  destruct Hnever as (Hnull & _).
  split; [| split].
  - assert (Hi : 0 <= 0 < 2) by lia.
    destruct (Hshown Hi) as (Heq & _). exact Heq.
  - assert (Hi : 0 <= 4 < 5) by lia.
    destruct (Hframe eq_refl Hi) as (Heq & _). exact Heq.
  - apply Hnull. right. reflexivity.
Defined.

(** C6, as it is worded, fails in [App]: with five samples recorded and
    playback not started, the log is not empty and the frame is [null]. *)
Lemma getCurrentMotionData_null_on_recorded_log :
  App.recordedData appNeverPlayed = fiveFrames
  /\ App.currentFrameIndex appNeverPlayed = 0
  /\ App.getCurrentMotionData appNeverPlayed = JsNull
  /\ App.getCurrentMotionData appNeverPlayed <> Sample frame0
  /\ ~ (forall a : App.AppState,
          App.getCurrentMotionData a = JsNull <-> App.recordedData a = []).
Proof.
  repeat split.
  - discriminate.
  - intros Hiff. destruct (Hiff appNeverPlayed) as [Hempty _].
    specialize (Hempty eq_refl). discriminate Hempty.
Qed.

End CurrentFrame.

(** ** Derived rotation *)

Section DerivedRotation.

(** C8, as the code has it.  In [MotionTracker.js] the accelerometer sample
    carries the three rotation fields and the gyroscope sample carries
    none (and is never passed to [onDataPoint]).  In [MotionTracker.tsx]
    both listeners set the three fields: the accelerometer with x and y
    exchanged, the gyroscope with the axes as they are. *)
Theorem rotation_fields_by_listener :
  forall (motion : float -> float) (isRecording hasCallback : bool) (now : Z)
         (data : Measurement) (d : MotionData),
    (built (MotionTrackerJs.accelListener motion isRecording hasCallback
              now data) = Some d ->
     type d = accelerometer
     /\ rotationX d = Some (motion (my data))
     /\ rotationY d = Some (motion (mx data))
     /\ rotationZ d = Some (motion (mz data)))
    /\ (built (MotionTrackerJs.gyroListener isRecording hasCallback now data)
          = Some d ->
        type d = gyroscope /\ no_rotation d)
    /\ delivered (MotionTrackerJs.gyroListener isRecording hasCallback now data)
         = None
    /\ (built (MotionTrackerTsx.accelListener isRecording now data) = Some d ->
        type d = accelerometer
        /\ rotationX d = Some (my data)
        /\ rotationY d = Some (mx data)
        /\ rotationZ d = Some (mz data))
    /\ (built (MotionTrackerTsx.gyroListener isRecording now data) = Some d ->
        type d = gyroscope
        /\ rotationX d = Some (mx data)
        /\ rotationY d = Some (my data)
        /\ rotationZ d = Some (mz data)).
Proof.
  intros motion isRecording hasCallback now data d.
  unfold MotionTrackerJs.accelListener, MotionTrackerJs.gyroListener,
    MotionTrackerTsx.accelListener, MotionTrackerTsx.gyroListener,
    delivered, no_rotation.
  destruct isRecording; cbn;
    (split; [| split; [| split; [| split]]]);
    try reflexivity;
    intros Hbuilt; try discriminate Hbuilt;
    injection Hbuilt as <-; cbn; repeat split.
Qed.

Lemma rotation_fields_by_listener_witness :
  let d := {| type := gyroscope; timestamp := 1500;
              x := 1%float; y := 2%float; z := 3%float;
              rotationX := Some 1%float;
              rotationY := Some 2%float;
              rotationZ := Some 3%float |} in
  built (MotionTrackerTsx.gyroListener true 1500 spin) = Some d
  /\ type d = gyroscope
  /\ rotationX d = Some (mx spin)
  /\ rotationY d = Some (my spin)
  /\ rotationZ d = Some (mz spin).
Proof.
  intros d. split; [reflexivity |].
  apply (rotation_fields_by_listener (fun v => v) true true 1500 spin d).
  reflexivity.
Defined.

(** C8, as it is worded, fails in [MotionTracker.tsx]: while recording, the
    gyroscope listener passes on a sample of type [gyroscope] whose
    [rotationX] is the reading's x. *)
Lemma gyroscope_sample_with_rotation :
  exists d : MotionData,
    delivered (MotionTrackerTsx.gyroListener true 1500 spin) = Some d
    /\ type d = gyroscope
    /\ rotationX d = Some 1%float
    /\ ~ no_rotation d
    /\ ~ rotation_only_for_accelerometer.
Proof.
  eexists. split; [reflexivity |]. cbn. repeat split.
  - intros (Hx & _). discriminate Hx.
  - intros Hclaim.
    destruct (Hclaim _ (produced_tsx_gyro true 1500 spin _ eq_refl) eq_refl)
      as (Hx & _).
    discriminate Hx.
Qed.

End DerivedRotation.

(** ** More on the store: sessions, navigation, reachable states *)

Section StoreSessions.

Import MotionStore.

(** While recording, a run of samples is appended in order, and the cursor
    follows the newest. *)
Lemma feed_recording (samples : list MotionData) (s : MotionState) :
  isRecording s = true ->
  feed samples s =
    {| isRecording := true;
       recordedData := recordedData s ++ samples;
       currentDataIndex :=
         match samples with
         | [] => currentDataIndex s
         | _ :: _ => len (recordedData s ++ samples) - 1
         end |}.
Proof.
  revert s. induction samples as [| d rest IH]; intros s Hrec.
  - cbn. rewrite app_nil_r. destruct s as [r l c]. cbn in Hrec. subst r.
    reflexivity.
  - unfold feed in *. cbn [fold_left].
    rewrite (run_addDataPoint_recording s d Hrec).
    rewrite IH by reflexivity.
    cbn [recordedData currentDataIndex]. rewrite <- app_assoc. cbn [app].
    destruct rest as [| d' rest']; [| reflexivity].
    rewrite len_app_one. f_equal. lia.
Qed.

(** X1.  A recording session.  From any state, [startRecording], then the
    samples, leaves exactly these samples in the log, in the order they
    came, with the cursor on the last one (0 if none came).
    [stopRecording] then keeps log and cursor and only drops the flag, and
    every later sample is discarded. *)
Theorem recording_session_log :
  forall (s : MotionState) (samples later : list MotionData),
    let recording := feed samples (run startRecording s) in
    let finished := run stopRecording recording in
    recordedData recording = samples
    /\ isRecording recording = true
    /\ currentDataIndex recording = Z.max 0 (len samples - 1)
    /\ recordedData finished = samples
    /\ currentDataIndex finished = currentDataIndex recording
    /\ isRecording finished = false
    /\ feed later finished = finished.
Proof.
  intros s samples later recording finished. subst finished recording.
  rewrite (feed_recording samples (run startRecording s) eq_refl).
  cbn [recordedData currentDataIndex isRecording app].
  assert (Hcur : match samples with
                 | [] => currentDataIndex (run startRecording s)
                 | _ :: _ => len samples - 1
                 end = Z.max 0 (len samples - 1)).
  { destruct samples as [| d rest]; [reflexivity |].
    unfold len. cbn [length]. lia. }
  repeat split; try exact Hcur.
  apply feed_idle. reflexivity.
Qed.

(** X2.  The log is append-only within a session: an action either leaves
    the log as it is, or appends the one sample it was given (only
    [addDataPoint], only while recording), or empties it (only
    [startRecording] and [clearRecordedData]).  No action drops, reorders
    or rewrites single samples. *)
Theorem log_changes_only_by_append_or_reset :
  forall (op : Op) (s : MotionState),
    let s' := run (action op) s in
    recordedData s' = recordedData s
    \/ (exists d, op = OpAddDataPoint d
                  /\ isRecording s = true
                  /\ recordedData s' = recordedData s ++ [d])
    \/ ((op = OpStartRecording \/ op = OpClearRecordedData)
        /\ recordedData s' = []).
Proof.
  intros op s s'. subst s'. destruct op as [| | d | | |]; cbn [action].
  - right. right. split; [left; reflexivity | reflexivity].
  - left. reflexivity.
  - destruct (isRecording s) eqn:Hrec.
    + right. left. exists d. rewrite (run_addDataPoint_recording s d Hrec).
      repeat split.
    + left. rewrite (addDataPoint_idle s d Hrec). reflexivity.
  - right. right. split; [right; reflexivity | reflexivity].
  - left. reflexivity.
  - left. reflexivity.
Qed.

(** X3.  [clearRecordedData] is [startRecording] followed by
    [stopRecording]: from any state both give the state the store was
    created with, and from there samples and navigation change nothing. *)
Theorem clearRecordedData_restores_initial_state :
  forall (s : MotionState) (samples : list MotionData) (ops : list bool),
    run clearRecordedData s = initialState
    /\ run stopRecording (run startRecording s) = run clearRecordedData s
    /\ feed samples (run clearRecordedData s) = initialState
    /\ navigate ops (run clearRecordedData s) = initialState.
Proof.
  intros s samples ops.
  assert (Hclear : run clearRecordedData s = initialState) by reflexivity.
  rewrite Hclear. repeat split.
  - apply feed_idle. reflexivity.
  - induction ops as [| forward ops IH]; [reflexivity |].
    unfold navigate in *. cbn [fold_left].
    destruct forward; exact IH.
Qed.

(** X4.  In every state the store goes through, the cursor designates a
    sample whenever there is one: on a non-empty log [recordedData] read at
    [currentDataIndex] is a sample, never [undefined], and it is the frame
    [VisualizeScreen] shows; on an empty log the cursor is 0. *)
Theorem reachable_cursor_designates_sample :
  forall s : MotionState,
    reachable s ->
    (recordedData s = [] -> currentDataIndex s = 0)
    /\ (recordedData s <> [] ->
        exists d : MotionData,
          js_index (recordedData s) (currentDataIndex s) = Sample d
          /\ forall sc : VisualizeScreen.Screen,
               VisualizeScreen.store sc = s ->
               VisualizeScreen.currentMotionData sc = Sample d).
Proof.
  intros s Hreach. apply reachable_in_bounds in Hreach.
  unfold cursor_in_bounds in Hreach. split.
  - intros Hnil. rewrite Hnil in Hreach. cbn in Hreach. lia.
  - intros Hne. pose proof Hne as Hpos. apply len_pos_cons in Hpos.
    assert (Hin : 0 <= currentDataIndex s < len (recordedData s)) by lia.
    destruct (js_index_in_range _ _ Hin) as [d Hd].
    exists d. split; [exact Hd |]. intros sc Hstore.
    rewrite (currentMotionData_nonempty sc) by (rewrite Hstore; exact Hne).
    rewrite Hstore, Z.rem_small by exact Hin. exact Hd.
Qed.

Lemma reachable_cursor_designates_sample_witness :
  reachable threeFrames
  /\ exists d : MotionData,
       js_index (recordedData threeFrames) (currentDataIndex threeFrames)
         = Sample d.
Proof.
  split; [exact threeFrames_reachable |].
  destruct (reachable_cursor_designates_sample threeFrames
              threeFrames_reachable) as [_ Hsome].
  destruct Hsome as [d [Hd _]]; [discriminate |].
  exists d. exact Hd.
Defined.

(** X5.  Next and Previous undo each other away from the ends: with the
    cursor in [0 .. length-2], [previousDataPoint] after [nextDataPoint]
    returns the state; with the cursor in [1 .. length-1], [nextDataPoint]
    after [previousDataPoint] does.  At the ends the pair moves the cursor
    one step inwards instead. *)
Theorem next_previous_round_trip :
  forall s : MotionState,
    let n := len (recordedData s) in
    let i := currentDataIndex s in
    (0 <= i < n - 1 ->
     run previousDataPoint (run nextDataPoint s) = s)
    /\ (0 < i <= n - 1 ->
        run nextDataPoint (run previousDataPoint s) = s)
    /\ (1 < n -> i = n - 1 ->
        currentDataIndex (run previousDataPoint (run nextDataPoint s)) = n - 2)
    /\ (1 < n -> i = 0 ->
        currentDataIndex (run nextDataPoint (run previousDataPoint s)) = 1).
Proof.
  intros s n i. subst n i.
  rewrite run_nextDataPoint, run_previousDataPoint.
  rewrite run_nextDataPoint, run_previousDataPoint.
  destruct s as [r l c]. cbn [recordedData currentDataIndex isRecording].
  repeat split; intros; try (f_equal; lia); lia.
Qed.

Lemma next_previous_round_trip_witness :
  let s := mkMotionState false [frame0; frame1; frame2] 1 in
  run previousDataPoint (run nextDataPoint s) = s
  /\ run nextDataPoint (run previousDataPoint s) = s
  /\ currentDataIndex
       (run previousDataPoint (run nextDataPoint threeFrames)) = 1.
Proof.
  intros s.
  destruct (next_previous_round_trip s) as (Hnp & Hpn & _).
  destruct (next_previous_round_trip threeFrames) as (_ & _ & Hend & _).
  cbv zeta in *.
  split; [apply Hnp; cbn; lia |].
  split; [apply Hpn; cbn; lia |].
  apply Hend; cbn; lia.
Defined.

(** X6.  Any sequence of Next and Previous leaves the log and the flag
    alone and keeps a cursor that is within bounds within bounds; [k] times
    Next from index [i] ends at [min (i + k) (length - 1)] and [k] times
    Previous at [max (i - k) 0], so [length - 1] presses reach either end
    from anywhere. *)
Theorem navigation_sequences :
  forall (s : MotionState) (ops : list bool) (k : nat),
    cursor_in_bounds s ->
    let last := Z.max 0 (len (recordedData s) - 1) in
    recordedData (navigate ops s) = recordedData s
    /\ isRecording (navigate ops s) = isRecording s
    /\ cursor_in_bounds (navigate ops s)
    /\ currentDataIndex (navigate (repeat true k) s) =
         Z.min (currentDataIndex s + Z.of_nat k) last
    /\ currentDataIndex (navigate (repeat false k) s) =
         Z.max (currentDataIndex s - Z.of_nat k) 0
    /\ (last <= Z.of_nat k ->
        currentDataIndex (navigate (repeat true k) s) = last
        /\ currentDataIndex (navigate (repeat false k) s) = 0).
Proof.
  intros s ops k Hb last. subst last.
  destruct (navigate_frame ops s) as [Hr Hd].
  assert (Hbounds : forall ops' s', cursor_in_bounds s' ->
                      cursor_in_bounds (navigate ops' s')).
  { clear. intros ops'. unfold navigate.
    induction ops' as [| forward ops' IH]; intros s' Hb'; [exact Hb' |].
    cbn [fold_left]. apply IH. destruct forward.
    - apply (action_keeps_bounds OpNextDataPoint), Hb'.
    - apply (action_keeps_bounds OpPreviousDataPoint), Hb'. }
  assert (Hnext : forall j s', cursor_in_bounds s' ->
            currentDataIndex (navigate (repeat true j) s') =
              Z.min (currentDataIndex s' + Z.of_nat j)
                    (Z.max 0 (len (recordedData s') - 1))).
  { clear. intros j. unfold navigate.
    induction j as [| j IH]; intros s' Hb'.
    - cbn. unfold cursor_in_bounds in Hb'. lia.
    - cbn [repeat fold_left]. rewrite IH.
      + rewrite run_nextDataPoint. cbn [currentDataIndex recordedData].
        unfold cursor_in_bounds in Hb'. lia.
      + apply (action_keeps_bounds OpNextDataPoint), Hb'. }
  assert (Hprev : forall j s', cursor_in_bounds s' ->
            currentDataIndex (navigate (repeat false j) s') =
              Z.max (currentDataIndex s' - Z.of_nat j) 0).
  { clear. intros j. unfold navigate.
    induction j as [| j IH]; intros s' Hb'.
    - cbn. unfold cursor_in_bounds in Hb'. lia.
    - cbn [repeat fold_left]. rewrite IH.
      + rewrite run_previousDataPoint. cbn [currentDataIndex].
        unfold cursor_in_bounds in Hb'. lia.
      + apply (action_keeps_bounds OpPreviousDataPoint), Hb'. }
  split; [exact Hd |]. split; [exact Hr |]. split; [apply Hbounds, Hb |].
  split; [apply Hnext, Hb |]. split; [apply Hprev, Hb |].
  intros Hk. rewrite (Hnext k s Hb), (Hprev k s Hb).
  unfold cursor_in_bounds in Hb. lia.
Qed.

Lemma navigation_sequences_witness :
  cursor_in_bounds threeFrames
  /\ currentDataIndex (navigate (repeat false 2) threeFrames) = 0
  /\ currentDataIndex (navigate (repeat true 2) threeFrames) = 2.
Proof.
  assert (Hb : cursor_in_bounds threeFrames)
    by (unfold cursor_in_bounds; cbn; lia).
  split; [exact Hb |].
  destruct (navigation_sequences threeFrames [] 2 Hb)
    as (_ & _ & _ & _ & _ & Hends).
  destruct Hends as [Hn Hp]; [cbn; lia |].
  split; [exact Hp | exact Hn].
Defined.

End StoreSessions.

(** ** More on [App.js]: recording and the life of the interval *)

Section AppSessions.

Import App AppEvents.

Ltac run_handler :=
  unfold run, execState, fire, tick, handleStartPlayback, handleStopPlayback,
    handleStartRecording, handleStopRecording, handleDataPoint,
    clearPlaybackInterval, setInterval, clearInterval, setPlaybackIntervalRef,
    setIsPlaying, setCurrentFrameIndex, setRecordedData, setIsRecording;
  cbn.

Lemma run_handleStartRecording (a : AppState) :
  run handleStartRecording a =
    mkAppState [] (isPlaying a) (currentFrameIndex a) true
      (playbackIntervalRef a) (timers a) (nextHandle a).
Proof. reflexivity. Qed.

Lemma run_handleDataPoint_recording (a : AppState) (d : MotionData) :
  isRecording a = true ->
  run (handleDataPoint d) a =
    mkAppState (recordedData a ++ [d]) (isPlaying a) (currentFrameIndex a)
      true (playbackIntervalRef a) (timers a) (nextHandle a).
Proof.
  destruct a as [rd p i r ref tm nh]. cbn [isRecording]. intros ->.
  reflexivity.
Qed.

Lemma run_handleDataPoint_idle (a : AppState) (d : MotionData) :
  isRecording a = false -> run (handleDataPoint d) a = a.
Proof.
  destruct a as [rd p i r ref tm nh]. cbn [isRecording]. intros ->.
  reflexivity.
Qed.

Lemma receive_recording (samples : list MotionData) (a : AppState) :
  isRecording a = true ->
  receive samples a =
    mkAppState (recordedData a ++ samples) (isPlaying a) (currentFrameIndex a)
      true (playbackIntervalRef a) (timers a) (nextHandle a).
Proof.
  revert a. induction samples as [| d rest IH]; intros a Hrec.
  - cbn. rewrite app_nil_r. destruct a as [rd p i r ref tm nh].
    cbn in Hrec. subst r. reflexivity.
  - unfold receive in *. cbn [fold_left].
    rewrite (run_handleDataPoint_recording a d Hrec).
    rewrite IH by reflexivity. cbn. rewrite <- app_assoc. reflexivity.
Qed.

Lemma receive_idle (samples : list MotionData) (a : AppState) :
  isRecording a = false -> receive samples a = a.
Proof.
  intros Hidle. unfold receive.
  induction samples as [| d rest IH]; [reflexivity |].
  cbn [fold_left]. rewrite run_handleDataPoint_idle by exact Hidle. exact IH.
Qed.

Lemma js_index_past_end (l : list MotionData) (i : Z) :
  len l <= i -> js_index l i = JsUndefined.
Proof.
  unfold js_index, len. intros Hi.
  destruct (i <? 0); [reflexivity |].
  destruct (nth_error l (Z.to_nat i)) as [d |] eqn:Hnth; [| reflexivity].
  assert (Hsome : nth_error l (Z.to_nat i) <> None) by congruence.
  apply nth_error_Some in Hsome. lia.
Qed.

(** X7.  A recording session in [App].  [handleStartRecording], then the
    samples, leaves exactly these samples in [recordedData], in order;
    recording touches neither [isPlaying], nor [currentFrameIndex], nor the
    interval.  After [handleStopRecording] the log is kept and later
    samples are discarded. *)
Theorem app_recording_session :
  forall (a : AppState) (samples later : list MotionData),
    let recording := receive samples (run handleStartRecording a) in
    let finished := run handleStopRecording recording in
    recordedData recording = samples
    /\ isRecording recording = true
    /\ isPlaying recording = isPlaying a
    /\ currentFrameIndex recording = currentFrameIndex a
    /\ playbackIntervalRef recording = playbackIntervalRef a
    /\ timers recording = timers a
    /\ recordedData finished = samples
    /\ isRecording finished = false
    /\ receive later finished = finished.
Proof.
  intros a samples later recording finished. subst finished recording.
  rewrite (receive_recording samples (run handleStartRecording a) eq_refl).
  rewrite run_handleStartRecording. cbn.
  repeat split. apply receive_idle. reflexivity.
Qed.

(** X8.  Recording does not reset playback.  If a recording is started
    while [isPlaying] is true and the samples that have come so far are not
    more than [currentFrameIndex], then [getCurrentMotionData] is
    [undefined]: neither [null] nor a sample.  Right after
    [handleStartRecording], with the log still empty, it is [null]. *)
Theorem recording_during_playback_reads_past_the_log :
  forall (a : AppState) (samples : list MotionData),
    isPlaying a = true ->
    samples <> [] ->
    len samples <= currentFrameIndex a ->
    getCurrentMotionData (run handleStartRecording a) = JsNull
    /\ getCurrentMotionData (receive samples (run handleStartRecording a))
       = JsUndefined.
Proof.
  intros a samples Hplay Hne Hlen.
  rewrite (receive_recording samples (run handleStartRecording a) eq_refl).
  rewrite run_handleStartRecording. unfold getCurrentMotionData. cbn.
  split; [reflexivity |].
  apply len_pos_cons in Hne.
  destruct (Z.eqb_spec (len samples) 0) as [Hz | _]; [lia |].
  rewrite Hplay. cbn. apply js_index_past_end, Hlen.
Qed.

Lemma recording_during_playback_reads_past_the_log_witness :
  isPlaying appAtLastFrame = true
  /\ currentFrameIndex appAtLastFrame = 4
  /\ getCurrentMotionData
       (receive [frame0; frame1] (run handleStartRecording appAtLastFrame))
     = JsUndefined.
Proof.
  split; [reflexivity |]. split; [reflexivity |].
  apply (recording_during_playback_reads_past_the_log appAtLastFrame
           [frame0; frame1]).
  - reflexivity.
  - discriminate.
  - vm_compute. discriminate.
Defined.

End AppSessions.

Section AppInterval.

Import App AppEvents.

Lemma run_handleStartPlayback_nonempty (a : AppState) :
  recordedData a <> [] ->
  run handleStartPlayback a =
    mkAppState (recordedData a) true 0 (isRecording a)
      (Some (nextHandle a))
      (timers (run clearPlaybackInterval a)
         ++ [mkInterval (nextHandle a) (recordedData a)])
      (Pos.succ (nextHandle a)).
Proof.
  destruct a as [rd p i r ref tm nh]. cbn [recordedData nextHandle isRecording].
  intros Hne. apply len_pos_cons in Hne.
  unfold run, execState, handleStartPlayback. cbn.
  destruct (Z.eqb_spec (len rd) 0) as [Hz | _]; [lia |].
  destruct ref as [id |]; reflexivity.
Qed.

Lemma initialState_consistent : playback_consistent initialState.
Proof.
  split; [intros iv [] | split; reflexivity].
Qed.

(** Every event keeps the ref, the intervals and the hooks in agreement. *)
Lemma dispatch_consistent (e : Event) (a : AppState) :
  playback_consistent a -> playback_consistent (dispatch e a).
Proof.
  intros [Hfresh Hagree].
  assert (Hclear : timers (run clearPlaybackInterval a) = []).
  { destruct (playbackIntervalRef a) as [id0 |] eqn:Href.
    - rewrite (run_clearPlaybackInterval_pending a id0 Href).
      destruct Hagree as (_ & captured & Htm & _).
      cbn [timers]. rewrite Htm. cbn. rewrite Pos.eqb_refl. reflexivity.
    - rewrite (run_clearPlaybackInterval_absent a Href). apply Hagree. }
  destruct e as [| | d | | | id]; cbn [dispatch].
  - split; [exact Hfresh | exact Hagree].
  - split; [exact Hfresh | exact Hagree].
  - destruct (isRecording a) eqn:Hrec.
    + rewrite (run_handleDataPoint_recording a d Hrec).
      split; [exact Hfresh | exact Hagree].
    + rewrite (run_handleDataPoint_idle a d Hrec).
      split; [exact Hfresh | exact Hagree].
  - destruct (recordedData a) as [| d0 rd0] eqn:Hrd.
    + rewrite (handleStartPlayback_empty a Hrd).
      split; [exact Hfresh | exact Hagree].
    + assert (Hne : recordedData a <> []) by (rewrite Hrd; discriminate).
      rewrite (run_handleStartPlayback_nonempty a Hne), Hclear, Hrd.
      apply len_pos_cons in Hne. rewrite Hrd in Hne.
      split.
      * intros iv [<- | []]. cbn. lia.
      * cbn. split; [reflexivity |].
        exists (d0 :: rd0). split; [reflexivity | lia].
  - rewrite run_handleStopPlayback.
    set (b := mkAppState (recordedData a) false (currentFrameIndex a)
                (isRecording a) (playbackIntervalRef a) (timers a)
                (nextHandle a)).
    assert (Hb : timers (run clearPlaybackInterval b) = []
                 /\ playbackIntervalRef (run clearPlaybackInterval b) = None
                 /\ isPlaying (run clearPlaybackInterval b) = false
                 /\ nextHandle (run clearPlaybackInterval b) = nextHandle a).
    { destruct (playbackIntervalRef a) as [id0 |] eqn:Href.
      - rewrite (run_clearPlaybackInterval_pending b id0 eq_refl).
        destruct Hagree as (_ & captured & Htm & _).
        subst b. cbn. rewrite Htm. cbn. rewrite Pos.eqb_refl. repeat split.
      - rewrite (run_clearPlaybackInterval_absent b eq_refl).
        subst b. cbn. destruct Hagree as [Htm _]. repeat split; assumption. }
    destruct Hb as (Htm & Href & Hp & _).
    split.
    + intros iv Hin. rewrite Htm in Hin. destruct Hin.
    + rewrite Href. split; assumption.
  - unfold fire.
    destruct (find (fun iv => Pos.eqb (handle iv) id) (timers a))
      as [iv |] eqn:Hfind; [| split; [exact Hfresh | exact Hagree]].
    destruct (playbackIntervalRef a) as [id0 |] eqn:Href.
    + destruct Hagree as (Hplay & captured & Htm & Hidx).
      rewrite Htm in Hfind. cbn in Hfind.
      destruct (Pos.eqb id0 id); [| discriminate].
      injection Hfind as <-. cbn [closure_recordedData].
      destruct (Z_lt_ge_dec (currentFrameIndex a) (len captured - 1))
        as [Hlt | Hge].
      * rewrite (run_tick_before_end captured a Hlt).
        split; [exact Hfresh |].
        cbn [playbackIntervalRef isPlaying timers currentFrameIndex].
        rewrite Href. split; [exact Hplay |].
        exists captured. split; [exact Htm | lia].
      * rewrite (run_tick_at_end captured a Hge). cbv zeta.
        rewrite Hclear, playbackIntervalRef_cleared.
        split; [intros iv [] | split; reflexivity].
    + destruct Hagree as [Htm _]. rewrite Htm in Hfind. discriminate.
Qed.

Lemma after_consistent (events : list Event) (a : AppState) :
  playback_consistent a -> playback_consistent (after events a).
Proof.
  revert a. unfold after.
  induction events as [| e events IH]; intros a Ha; [exact Ha |].
  cbn [fold_left]. apply IH, dispatch_consistent, Ha.
Qed.

(** X9.  No interval leaks.  Whatever the buttons, the tracker and the
    host do to a freshly mounted [App], in any order: at most one interval
    is pending, it is the one [playbackIntervalRef] holds, [isPlaying] is
    true exactly while it is pending, its index is then inside the log the
    callback closed over, and the unmount cleanup
    ([clearPlaybackInterval]) leaves no interval behind. *)
Theorem app_interval_never_leaks :
  forall events : list Event,
    let a := after events initialState in
    playback_consistent a
    /\ (length (timers a) <= 1)%nat
    /\ (forall iv, In iv (timers a) ->
          playbackIntervalRef a = Some (handle iv)
          /\ 0 <= currentFrameIndex a <= len (closure_recordedData iv) - 1)
    /\ (isPlaying a = true <-> timers a <> [])
    /\ (isPlaying a = true <-> playbackIntervalRef a <> None)
    /\ timers (run clearPlaybackInterval a) = [].
Proof.
  intros events a.
  pose proof (after_consistent events initialState initialState_consistent)
    as Hinv.
  fold a in Hinv. destruct Hinv as [Hfresh Hagree].
  split; [split; assumption |].
  destruct (playbackIntervalRef a) as [id |] eqn:Href.
  - destruct Hagree as (Hplay & captured & Htm & Hidx).
    rewrite (run_clearPlaybackInterval_pending a id Href).
    cbn [timers]. rewrite Htm, Hplay. cbn. rewrite Pos.eqb_refl.
    split; [lia |]. split; [| split; [| split]].
    + intros iv [<- | []]. split; [reflexivity | exact Hidx].
    + split; [discriminate | reflexivity].
    + split; [discriminate | reflexivity].
    + reflexivity.
  - destruct Hagree as [Htm Hstop].
    rewrite (run_clearPlaybackInterval_absent a Href), Htm, Hstop. cbn.
    split; [lia |]. split; [| split; [| split]].
    + intros iv [].
    + split; [discriminate | intros H; elim H; reflexivity].
    + split; [discriminate | intros H; elim H; reflexivity].
    + reflexivity.
Qed.

(** While the interval has frames left, [k] firings add [k] to the index
    and change nothing else. *)
Lemma fires_before_end (k : nat) (iv : Interval) (a : AppState) :
  isPlaying a = true ->
  find (fun iv' => Pos.eqb (handle iv') (handle iv)) (timers a) = Some iv ->
  currentFrameIndex a + Z.of_nat k <= len (closure_recordedData iv) - 1 ->
  fires k (handle iv) a =
    mkAppState (recordedData a) true (currentFrameIndex a + Z.of_nat k)
      (isRecording a) (playbackIntervalRef a) (timers a) (nextHandle a).
Proof.
  revert a. induction k as [| k IH]; intros a Hplay Hfind Hroom.
  - cbn [fires]. destruct a as [rd p i r ref tm nh]. cbn in *. subst p.
    f_equal. lia.
  - cbn [fires]. unfold fire at 1. rewrite Hfind.
    rewrite run_tick_before_end by lia.
    rewrite IH; cbn [isPlaying timers currentFrameIndex recordedData
                     isRecording playbackIntervalRef nextHandle];
      try assumption; try lia.
    f_equal. lia.
Qed.

(** X10.  Playback is one pass.  Play on a log of [n] samples: the [k]-th
    firing, for [k < n], shows sample [k] of the log with playback still on;
    the [n]-th firing puts the index back to 0, stops playback, clears the
    interval, and the frame is [null]; every firing after that changes
    nothing. *)
Theorem playback_is_a_single_pass :
  forall a : AppState,
    recordedData a <> [] ->
    handles_fresh a ->
    let n := length (recordedData a) in
    let id := nextHandle a in
    let started := run handleStartPlayback a in
    (forall (k : nat) (d : MotionData),
       nth_error (recordedData a) k = Some d ->
       currentFrameIndex (fires k id started) = Z.of_nat k
       /\ isPlaying (fires k id started) = true
       /\ getCurrentMotionData (fires k id started) = Sample d)
    /\ currentFrameIndex (fires n id started) = 0
    /\ isPlaying (fires n id started) = false
    /\ playbackIntervalRef (fires n id started) = None
    /\ cancelled id (fires n id started)
    /\ getCurrentMotionData (fires n id started) = JsNull
    /\ forall m : nat, fires (n + m) id started = fires n id started.
Proof.
  intros a Hne Hfresh n id started.
  destruct (handleStartPlayback_starts a Hne Hfresh)
    as (Hrd & Hplay & Hidx & Href & Hfind).
  fold started id in Hrd, Hplay, Hidx, Href, Hfind.
  set (iv := mkInterval id (recordedData a)) in *.
  assert (Hsteps : forall k : nat, (k < n)%nat ->
            fires k id started =
              mkAppState (recordedData a) true (Z.of_nat k)
                (isRecording started) (Some id) (timers started)
                (nextHandle started)).
  { intros k Hk.
    assert (Hroom : currentFrameIndex started + Z.of_nat k
                    <= len (closure_recordedData iv) - 1).
    { rewrite Hidx. subst iv. cbn [closure_recordedData]. unfold len.
      fold n. lia. }
    pose proof (fires_before_end k iv started Hplay Hfind Hroom) as Hfires.
    change (handle iv) with id in Hfires.
    rewrite Hfires, Hrd, Hidx, Href. reflexivity. }
  assert (Hlast : fires n id started =
            mkAppState (recordedData a) false 0 (isRecording started) None
              (filter (fun iv' => negb (Pos.eqb (handle iv') id))
                 (timers started))
              (nextHandle started)).
  { assert (Hn : n = S (pred n)).
    { pose proof (proj1 (len_pos_cons _) Hne) as Hpos. unfold len in Hpos.
      fold n in Hpos. lia. }
    rewrite Hn.
    assert (Hsplit : forall j b, fires (S j) id b = fire id (fires j id b)).
    { clear. intros j. induction j as [| j IH]; intros b; [reflexivity |].
      cbn [fires] in *. rewrite <- IH. reflexivity. }
    rewrite Hsplit, (Hsteps (pred n)) by lia.
    unfold fire. cbn [timers]. change (handle iv) with id in Hfind.
    rewrite Hfind. cbn [closure_recordedData iv].
    rewrite run_tick_at_end by (cbn; unfold len; fold n; lia).
    reflexivity. }
  assert (Hgone : find (fun iv' => Pos.eqb (handle iv') id)
                    (timers (fires n id started)) = None).
  { rewrite Hlast. cbn [timers].
    destruct (find (fun iv' => Pos.eqb (handle iv') id)
                (filter (fun iv' => negb (Pos.eqb (handle iv') id))
                   (timers started))) as [iv' |] eqn:Hf; [| reflexivity].
    apply find_some in Hf. destruct Hf as [Hin Heq].
    apply filter_cancels in Hin. apply Pos.eqb_eq in Heq. contradiction. }
  split; [| split; [| split; [| split; [| split; [| split]]]]].
  - intros k d Hnth.
    assert (Hk : (k < n)%nat)
      by (apply nth_error_Some; rewrite Hnth; discriminate).
    rewrite (Hsteps k Hk). cbn. split; [reflexivity |]. split; [reflexivity |].
    unfold getCurrentMotionData. cbn.
    apply len_pos_cons in Hne.
    destruct (Z.eqb_spec (len (recordedData a)) 0) as [Hz | _]; [lia |].
    cbn. unfold js_index.
    destruct (Z.ltb_spec (Z.of_nat k) 0) as [Hneg | _]; [lia |].
    rewrite Nat2Z.id, Hnth. reflexivity.
  - rewrite Hlast. reflexivity.
  - rewrite Hlast. reflexivity.
  - rewrite Hlast. reflexivity.
  - rewrite Hlast. intros iv' Hin. exact (filter_cancels _ _ _ Hin).
  - rewrite Hlast. unfold getCurrentMotionData. cbn.
    rewrite Bool.orb_true_r. reflexivity.
  - intros m. induction m as [| m IH].
    + rewrite Nat.add_0_r. reflexivity.
    + assert (Hsplit : forall j b, fires (S j) id b = fire id (fires j id b)).
      { clear. intros j. induction j as [| j IHj]; intros b; [reflexivity |].
        cbn [fires] in *. rewrite <- IHj. reflexivity. }
      rewrite Nat.add_succ_r, Hsplit, IH.
      unfold fire. rewrite Hgone. reflexivity.
Qed.

Lemma playback_is_a_single_pass_witness :
  recordedData appRecorded <> []
  /\ handles_fresh appRecorded
  /\ getCurrentMotionData (fires 3 1%positive appPlaying) = Sample frame3
  /\ isPlaying (fires 5 1%positive appPlaying) = false
  /\ fires (5 + 2) 1%positive appPlaying = fires 5 1%positive appPlaying.
Proof.
  assert (Hne : recordedData appRecorded <> []) by discriminate.
  assert (Hfresh : handles_fresh appRecorded) by (intros iv []).
  destruct (playback_is_a_single_pass appRecorded Hne Hfresh)
    as (Hframes & _ & Hstop & _ & _ & _ & Hafter).
  split; [exact Hne |]. split; [exact Hfresh |].
  split; [apply (Hframes 3%nat frame3 eq_refl) |].
  split; [exact Hstop | exact (Hafter 2%nat)].
Defined.

End AppInterval.

(** ** More on [VisualizeScreen]: the effect and the buttons *)

Section ScreenEffect.

Import MotionStore VisualizeScreen ScreenEvents.

(** After the cleanup and the effect have run, an interval is pending
    exactly when the screen is playing over a non-empty log. *)
Lemma effect_synced (sc : Screen) : synced (effect (cleanup sc)).
Proof.
  unfold synced, effect, cleanup.
  assert (Hlen : forall l : list MotionData, (len l >? 0) = true <-> l <> []).
  { intros l. rewrite len_pos_cons.
    destruct (Z.gtb_spec (len l) 0); split; intros; try lia; try reflexivity;
      try discriminate. }
  destruct (playbackInterval sc) as [id |];
    cbn [store isPlaying playbackInterval nextHandle];
    destruct (isPlaying sc);
    destruct (len (recordedData (store sc)) >? 0) eqn:Hgt;
    cbn [andb store isPlaying playbackInterval];
    (split; [intros Hp | intros [Hplay Hne]]);
    try discriminate; try (elim Hp; reflexivity);
    try (split; [reflexivity | apply Hlen; exact Hgt]).
  all: apply Hlen in Hne; rewrite Hne in Hgt; discriminate.
Qed.

Lemma deps_eqb_true (d1 d2 : bool * Z) :
  deps_eqb d1 d2 = true -> fst d1 = fst d2 /\ snd d1 = snd d2.
Proof.
  unfold deps_eqb. intros H. apply andb_true_iff in H. destruct H as [Hb Hz].
  split; [apply Bool.eqb_prop, Hb | apply Z.eqb_eq, Hz].
Qed.

Lemma togglePlaying_runs_effect (sc : Screen) :
  togglePlaying sc =
    effect (cleanup (mkScreen (store sc) (negb (isPlaying sc))
                       (playbackInterval sc) (nextHandle sc))).
Proof.
  unfold togglePlaying, rerender, deps, deps_eqb.
  cbn [store isPlaying fst snd]. destruct (isPlaying sc); reflexivity.
Qed.

Lemma effect_cleanup_frame (sc : Screen) :
  store (effect (cleanup sc)) = store sc
  /\ isPlaying (effect (cleanup sc)) = isPlaying sc.
Proof.
  unfold effect, cleanup.
  destruct (playbackInterval sc); cbn [store isPlaying];
    destruct (isPlaying sc && (len (recordedData (store sc)) >? 0));
    split; reflexivity.
Qed.

(** X11.  The ticker follows the effect's condition.  After the mount and
    after every press of Play/Pause an interval is pending exactly when
    [isPlaying] is true and the log is not empty, and every change of the
    store under the mounted screen keeps it so.  Play/Pause flips
    [isPlaying] and leaves the store, the cursor included, as it is. *)
Theorem screen_interval_follows_effect :
  forall (sc : Screen) (act : Action),
    synced sc ->
    synced (onStoreChange act sc)
    /\ synced (togglePlaying sc)
    /\ store (togglePlaying sc) = store sc
    /\ isPlaying (togglePlaying sc) = negb (isPlaying sc)
    /\ store (onStoreChange act sc) = run act (store sc)
    /\ isPlaying (onStoreChange act sc) = isPlaying sc
    /\ forall st next, synced (mount st next).
Proof.
  intros sc act Hsync.
  split; [| split; [| split; [| split; [| split; [| split]]]]].
  - unfold onStoreChange, rerender.
    destruct (deps_eqb _ _) eqn:Hdeps; [| apply effect_synced].
    apply deps_eqb_true in Hdeps. unfold deps in Hdeps.
    cbn [fst snd store isPlaying] in Hdeps. destruct Hdeps as [_ Hlen].
    unfold synced in *. cbn [store isPlaying playbackInterval].
    rewrite Hsync. rewrite !len_pos_cons, Hlen. reflexivity.
  - rewrite togglePlaying_runs_effect. apply effect_synced.
  - rewrite togglePlaying_runs_effect.
    exact (proj1 (effect_cleanup_frame _)).
  - rewrite togglePlaying_runs_effect.
    exact (proj2 (effect_cleanup_frame _)).
  - unfold onStoreChange, rerender.
    destruct (deps_eqb _ _);
      [reflexivity | exact (proj1 (effect_cleanup_frame _))].
  - unfold onStoreChange, rerender.
    destruct (deps_eqb _ _);
      [reflexivity | exact (proj2 (effect_cleanup_frame _))].
  - intros st next. unfold mount.
    change (mkScreen st false None next)
      with (cleanup (mkScreen st false None next)).
    apply effect_synced.
Qed.

Lemma screen_interval_follows_effect_witness :
  synced screenPlaying
  /\ synced (togglePlaying screenPlaying)
  /\ playbackInterval (togglePlaying screenPlaying) = None
  /\ synced (onStoreChange clearRecordedData screenPlaying).
Proof.
  assert (Hsync : synced screenPlaying).
  { split; [intros _; split; [reflexivity | discriminate] |].
    intros _. discriminate. }
  destruct (screen_interval_follows_effect screenPlaying clearRecordedData
              Hsync) as (Hstore & Htoggle & _).
  split; [exact Hsync |]. split; [exact Htoggle |].
  split; [reflexivity | exact Hstore].
Defined.



(** X13.  The buttons are disabled exactly where the store saturates.  On
    a non-empty log with the cursor in bounds: when Next is enabled a press
    moves the cursor up by one, when it is disabled [nextDataPoint] would
    change nothing; the same for Previous, downwards. *)
Theorem buttons_disabled_where_cursor_saturates :
  forall sc : Screen,
    recordedData (store sc) <> [] ->
    cursor_in_bounds (store sc) ->
    let i := currentDataIndex (store sc) in
    (nextDisabled sc = false ->
     currentDataIndex (run nextDataPoint (store sc)) = i + 1)
    /\ (nextDisabled sc = true -> run nextDataPoint (store sc) = store sc)
    /\ (previousDisabled sc = false ->
        currentDataIndex (run previousDataPoint (store sc)) = i - 1)
    /\ (previousDisabled sc = true ->
        run previousDataPoint (store sc) = store sc).
Proof.
  intros sc Hne Hb i. subst i. apply len_pos_cons in Hne.
  unfold nextDisabled, previousDisabled, cursor_in_bounds in *.
  rewrite run_nextDataPoint, run_previousDataPoint.
  destruct (store sc) as [r l c].
  cbn [recordedData currentDataIndex isRecording] in *.
  repeat split; intros Hbtn.
  - apply Z.eqb_neq in Hbtn. lia.
  - apply Z.eqb_eq in Hbtn. f_equal. lia.
  - apply Z.eqb_neq in Hbtn. lia.
  - apply Z.eqb_eq in Hbtn. f_equal. lia.
Qed.

Lemma buttons_disabled_where_cursor_saturates_witness :
  let sc := mkScreen threeFrames false None 1%positive in
  recordedData (store sc) <> []
  /\ cursor_in_bounds (store sc)
  /\ nextDisabled sc = true
  /\ run nextDataPoint (store sc) = store sc
  /\ currentDataIndex (run previousDataPoint (store sc)) = 1.
Proof.
  intros sc.
  assert (Hne : recordedData (store sc) <> []) by discriminate.
  assert (Hb : cursor_in_bounds (store sc))
    by (unfold cursor_in_bounds; cbn; lia).
  destruct (buttons_disabled_where_cursor_saturates sc Hne Hb)
    as (_ & Hnext & Hprev & _).
  split; [exact Hne |]. split; [exact Hb |]. split; [reflexivity |].
  split; [exact (Hnext eq_refl) | exact (Hprev eq_refl)].
Defined.

End ScreenEffect.

(** ** [RecordScreen] and [ThreeDVisualizer] *)

Section Rendering.

Import MotionStore ThreeDVisualizer.

(** An accepted sample ends up under the cursor. *)
Lemma accepted_sample_under_cursor (s : MotionState)
  (d : MotionData) :
  isRecording s = true ->
  recordedData (run (addDataPoint d) s) = recordedData s ++ [d]
  /\ currentDataIndex (run (addDataPoint d) s) = len (recordedData s)
  /\ js_index (recordedData (run (addDataPoint d) s))
       (currentDataIndex (run (addDataPoint d) s)) = Sample d.
Proof.
  intros Hrec. rewrite (run_addDataPoint_recording s d Hrec).
  cbn [recordedData currentDataIndex].
  split; [reflexivity |]. split; [reflexivity |]. apply js_index_last.
Qed.

(** X14.  [RecordScreen]'s last data point.  It is [undefined] exactly
    when the log is empty (the block is then not rendered) and never
    [null]; after an accepted [addDataPoint] it is the sample just added,
    which is also the sample under the cursor. *)
Theorem lastDataPoint_is_newest_sample :
  forall s : MotionState,
    (RecordScreen.lastDataPoint s = JsUndefined <-> recordedData s = [])
    /\ RecordScreen.lastDataPoint s <> JsNull
    /\ forall d : MotionData,
         isRecording s = true ->
         let s' := run (addDataPoint d) s in
         RecordScreen.lastDataPoint s' = Sample d
         /\ RecordScreen.lastDataPoint s' =
              js_index (recordedData s') (currentDataIndex s').
Proof.
  intros s. unfold RecordScreen.lastDataPoint.
  split; [split |]; [| | split].
  - intros Hundef. destruct (recordedData s) as [| d0 l] eqn:Hl;
      [reflexivity |].
    assert (Hin : 0 <= len (d0 :: l) - 1 < len (d0 :: l)).
    { unfold len. cbn [length]. lia. }
    destruct (js_index_in_range _ _ Hin) as [d Hd].
    rewrite Hd in Hundef. discriminate.
  - intros ->. reflexivity.
  - apply js_index_not_null.
  - intros d Hrec.
    rewrite (run_addDataPoint_recording s d Hrec).
    cbn [recordedData currentDataIndex].
    rewrite len_app_one.
    replace (len (recordedData s) + 1 - 1) with (len (recordedData s)) by lia.
    split; [apply js_index_last | reflexivity].
Qed.

Lemma lastDataPoint_is_newest_sample_witness :
  let s := feed [frame0; frame1] (run startRecording initialState) in
  isRecording s = true
  /\ RecordScreen.lastDataPoint (run (addDataPoint frame2) s) = Sample frame2.
Proof.
  intros s. split; [reflexivity |].
  destruct (lastDataPoint_is_newest_sample s) as (_ & _ & Hadd).
  destruct (Hadd frame2 eq_refl) as [Hlast _]. exact Hlast.
Defined.

Lemma orZero_not_nan (field : option float) : is_nan (orZero field) = false.
Proof.
  unfold orZero, falsy. destruct field as [v |]; [| reflexivity].
  destruct (PrimFloat.eqb v 0); cbn [orb]; [reflexivity |].
  destruct (is_nan v) eqn:Hnan; [reflexivity | exact Hnan].
Qed.

(** X15.  The message for a recorded frame.  [ThreeDVisualizer] posts
    nothing when the frame is [null] or [undefined] or the web view is not
    there yet.  When it posts, no field is NaN, and a rotation field that is
    absent from the sample is sent as 0: a sample without rotation fields
    turns the cube to (0, 0, 0). *)
Theorem playbackMessage_cases :
  forall (webView : bool) (motionData : Frame),
    (playbackMessage webView motionData = None <->
       webView = false \/ motionData = JsNull \/ motionData = JsUndefined)
    /\ (forall m : Orientation,
          playbackMessage webView motionData = Some m ->
          is_nan (ox m) = false
          /\ is_nan (oy m) = false
          /\ is_nan (oz m) = false)
    /\ (forall d : MotionData,
          motionData = Sample d ->
          webView = true ->
          no_rotation d ->
          playbackMessage webView motionData =
            Some (mkOrientation 0%float 0%float 0%float)).
Proof.
  intros webView motionData. split; [| split].
  - destruct motionData as [| | d]; destruct webView; cbn; split;
      intros H; try reflexivity; try discriminate;
      try (left; reflexivity); try (right; left; reflexivity);
      try (right; right; reflexivity).
    destruct H as [H | [H | H]]; discriminate.
  - intros m Hm.
    destruct motionData as [| | d]; try discriminate.
    destruct webView; try discriminate.
    cbn in Hm. injection Hm as <-. cbn [ox oy oz].
    repeat split; apply orZero_not_nan.
  - intros d -> -> (Hx & Hy & Hz). cbn. rewrite Hx, Hy, Hz. reflexivity.
Qed.

Lemma playbackMessage_cases_witness :
  let d := {| type := gyroscope; timestamp := 1500;
              x := 1%float; y := 2%float; z := 3%float;
              rotationX := None; rotationY := None; rotationZ := None |} in
  playbackMessage true (Sample d) =
    Some (mkOrientation 0%float 0%float 0%float)
  /\ is_nan (ox (mkOrientation 0%float 0%float 0%float)) = false.
Proof.
  intros d.
  destruct (playbackMessage_cases true (Sample d)) as (_ & Hnan & Hzero).
  assert (Hmsg : playbackMessage true (Sample d) =
                 Some (mkOrientation 0%float 0%float 0%float)).
  { apply (Hzero d); [reflexivity | reflexivity |].
    repeat split. }
  split; [exact Hmsg |]. destruct (Hnan _ Hmsg) as [Hx _]. exact Hx.
Defined.

(** X16.  From the sensor to the cube.  A reading that the accelerometer
    listener of [MotionTracker.tsx] delivers while the store is recording is
    appended, becomes the frame [VisualizeScreen] shows, and is posted with
    x and y exchanged: the cube gets [(y || 0, x || 0, z || 0)] of the
    reading.  The same reading from the gyroscope listener is posted with
    its axes as they are. *)
Theorem reading_reaches_the_cube :
  forall (s : MotionState) (sc : VisualizeScreen.Screen) (now : Z)
         (data : Measurement) (d : MotionData),
    isRecording s = true ->
    VisualizeScreen.store sc = run (addDataPoint d) s ->
    (delivered (MotionTrackerTsx.accelListener true now data) = Some d ->
     playbackMessage true (VisualizeScreen.currentMotionData sc) =
       Some {| ox := orZero (Some (my data));
               oy := orZero (Some (mx data));
               oz := orZero (Some (mz data)) |})
    /\ (delivered (MotionTrackerTsx.gyroListener true now data) = Some d ->
        playbackMessage true (VisualizeScreen.currentMotionData sc) =
          Some {| ox := orZero (Some (mx data));
                  oy := orZero (Some (my data));
                  oz := orZero (Some (mz data)) |}).
Proof.
  intros s sc now data d Hrec Hstore.
  assert (Hshown : VisualizeScreen.currentMotionData sc = Sample d).
  { destruct (accepted_sample_under_cursor s d Hrec)
      as (Hlog & Hcur & Hframe).
    assert (Hne : recordedData (VisualizeScreen.store sc) <> []).
    { rewrite Hstore, Hlog. destruct (recordedData s); discriminate. }
    rewrite (currentMotionData_nonempty sc Hne), Hstore.
    rewrite Z.rem_small; [exact Hframe |].
    rewrite Hcur, Hlog, len_app_one.
    pose proof (len_nonneg (recordedData s)). lia. }
  rewrite Hshown.
  split; intros Hd; cbn in Hd; injection Hd as <-; reflexivity.
Qed.

Lemma reading_reaches_the_cube_witness :
  let s := run startRecording initialState in
  let d := accelSample 1500 1%float 2%float 3%float in
  let sc := VisualizeScreen.mkScreen (run (addDataPoint d) s) false None
              1%positive in
  isRecording s = true
  /\ playbackMessage true (VisualizeScreen.currentMotionData sc) =
       Some (mkOrientation 2%float 1%float 3%float).
Proof.
  intros s d sc. split; [reflexivity |].
  destruct (reading_reaches_the_cube s sc 1500 spin d eq_refl eq_refl)
    as [Haccel _].
  exact (Haccel eq_refl).
Defined.

End Rendering.
